(** * thelook analytics agent: validation, recovery, routing and result cache

    A shallow embedding of [agents/nodes.py], [agents/specialized_agents.py],
    [agents/graph.py] ([should_continue]), [prompts/sql_generation.py] and
    [services/cache_service.py], with the properties of the query pipeline
    stated and proved against it.

    Text.  A Python [str] is embedded as a [string] whose characters stand for
    the code points 0..255.  The character classes and case maps below follow
    Python's [str] methods and the [re] module (Unicode mode) on that range.
    [str.upper] writes the sharp s (223) as the two letters SS, and sends two
    characters outside the range: 181 to U+039C and 255 to U+0178.  [upper]
    writes SS as Python does.  No upper-cased text holds 181 or 255, so in a
    result of [upper] these two characters stand for U+039C and U+0178:
    [upper_points] gives the code points of [str.upper] themselves, and
    [upper_eq_iff] shows that two texts have the same [upper] exactly when
    [str.upper] gives them the same code points.

    State.  [AgentState] is a record with the keys of the TypedDict; a stage
    takes a state and returns the updated one.  An exception that leaves a
    function is the outcome [Raise] with the text of [str(e)].

    Collaborators.  BigQuery, the schema service, the text generation and the
    visualization service are oracles that see the log of the calls made so
    far; every call is appended to the log.  A stage takes the services as
    they are once [_get_services()] has returned them; [generate_sql] takes
    the outcome of that call, which raises when the BigQuery service cannot
    be built.

    Cache.  Tables live in a store of objects, so that [copy()] and a caller's
    later writes to a table can be told apart; the clock reading is an
    argument of each operation.  Logging and tracing change no state and are
    left out. *)

From Stdlib Require Import ZArith NArith Bool List Ascii String DecimalString Lia.
From stdpp Require Import gmap strings.
Import ListNotations.

Local Open Scope Z_scope.

(** ** Python string operations *)

Module PyStr.

Definition code (c : ascii) : N := N_of_ascii c.

Definition in_range (lo hi : N) (c : ascii) : bool :=
  ((lo <=? code c) && (code c <=? hi))%N.

Definition is_code (n : N) (c : ascii) : bool := (code c =? n)%N.

(** [str.isalnum] on one character. *)
Definition isalnum (c : ascii) : bool :=
  in_range 48 57 c || in_range 65 90 c || in_range 97 122 c
  || is_code 170 c || in_range 178 179 c || is_code 181 c
  || in_range 185 186 c || in_range 188 190 c
  || in_range 192 214 c || in_range 216 246 c || in_range 248 255 c.

(** The class [\w] of [re]: alphanumeric or underscore. *)
Definition is_word (c : ascii) : bool := isalnum c || is_code 95 c.

(** [str.isspace] on one character. *)
Definition isspace (c : ascii) : bool :=
  in_range 9 13 c || in_range 28 32 c || is_code 133 c || is_code 160 c.

Definition shift_down (c : ascii) : ascii := ascii_of_N (code c - 32).
Definition shift_up (c : ascii) : ascii := ascii_of_N (code c + 32).

(** The upper-case form of a character whose form is one character of the
    range; 181, 223 and 255 are dealt with by [upper_char]. *)
Definition to_upper (c : ascii) : ascii :=
  if in_range 97 122 c || in_range 224 246 c || in_range 248 254 c
  then shift_down c else c.

Definition to_lower (c : ascii) : ascii :=
  if in_range 65 90 c || in_range 192 214 c || in_range 216 222 c
  then shift_up c else c.

Fixpoint map_chars (f : ascii -> ascii) (s : string) : string :=
  match s with
  | EmptyString => EmptyString
  | String c s' => String (f c) (map_chars f s')
  end.

(** [c.upper()] for one character: SS for the sharp s; in the result 181
    stands for U+039C and 255 for U+0178 (see [point]). *)
Definition upper_char (c : ascii) : string :=
  if is_code 223 c then "SS" else String (to_upper c) EmptyString.

(** [s.upper()] *)
Fixpoint upper (s : string) : string :=
  match s with
  | EmptyString => EmptyString
  | String c s' => upper_char c +:+ upper s'
  end.

(** [s.lower()] *)
Definition lower (s : string) : string := map_chars to_lower s.

(** The code points of [c.upper()] and of [s.upper()]. *)
Definition upper_points_char (c : ascii) : list N :=
  if is_code 181 c then [924%N]
  else if is_code 223 c then [83%N; 83%N]
  else if is_code 255 c then [376%N]
  else [code (to_upper c)].

Fixpoint upper_points (s : string) : list N :=
  match s with
  | EmptyString => []
  | String c s' => upper_points_char c ++ upper_points s'
  end.

(** The code point that a character of an upper-cased text stands for. *)
Definition point (c : ascii) : N :=
  if is_code 181 c then 924%N else if is_code 255 c then 376%N else code c.

Fixpoint points (s : string) : list N :=
  match s with
  | EmptyString => []
  | String c s' => point c :: points s'
  end.

(** [s.startswith(p)] *)
Fixpoint startswith (p s : string) : bool :=
  match p, s with
  | EmptyString, _ => true
  | String a p', String b s' => Ascii.eqb a b && startswith p' s'
  | String _ _, EmptyString => false
  end.

(** [needle in hay] *)
Fixpoint contains (needle hay : string) : bool :=
  startswith needle hay
  || match hay with
     | EmptyString => false
     | String _ hay' => contains needle hay'
     end.

(** [s[n:]] *)
Fixpoint drop (n : nat) (s : string) : string :=
  match n, s with
  | O, _ => s
  | S _, EmptyString => EmptyString
  | S n', String _ s' => drop n' s'
  end.

Fixpoint rev_onto (s acc : string) : string :=
  match s with
  | EmptyString => acc
  | String c s' => rev_onto s' (String c acc)
  end.

Definition rev (s : string) : string := rev_onto s EmptyString.

(** [s.endswith(p)] *)
Definition endswith (p s : string) : bool := startswith (rev p) (rev s).

(** [s[:-n]] for [n > 0] *)
Definition drop_last (n : nat) (s : string) : string := rev (drop n (rev s)).

Fixpoint lstrip (s : string) : string :=
  match s with
  | EmptyString => EmptyString
  | String c s' => if isspace c then lstrip s' else s
  end.

(** [s.strip()] *)
Definition strip (s : string) : string := rev (lstrip (rev (lstrip s))).

(** [s.split()]: the maximal runs of non-space characters. [cur] is the run
    being read, reversed. *)
Fixpoint split_from (cur : string) (s : string) : list string :=
  match s with
  | EmptyString =>
      match cur with EmptyString => [] | _ => [rev cur] end
  | String c s' =>
      if isspace c then
        match cur with
        | EmptyString => split_from EmptyString s'
        | _ => rev cur :: split_from EmptyString s'
        end
      else split_from (String c cur) s'
  end.

Definition split (s : string) : list string := split_from EmptyString s.

(** [sep.join(parts)] *)
Fixpoint join (sep : string) (parts : list string) : string :=
  match parts with
  | [] => EmptyString
  | [p] => p
  | p :: rest => p +:+ sep +:+ join sep rest
  end.

(** *** The regular expressions of the source

    Every pattern in the source has the shape [\b] literal [\b].  A word
    boundary lies between a [\w] character and a non-[\w] character or an end
    of the text. *)

Definition is_word_opt (o : option ascii) : bool :=
  match o with Some c => is_word c | None => false end.

Definition boundary (prev next : option ascii) : bool :=
  xorb (is_word_opt prev) (is_word_opt next).

Definition head (s : string) : option ascii :=
  match s with EmptyString => None | String c _ => Some c end.

(** Character comparison, under [re.IGNORECASE] when [ci] is set. *)
Definition char_matches (ci : bool) (p c : ascii) : bool :=
  if ci then Ascii.eqb (to_lower p) (to_lower c) else Ascii.eqb p c.

(** Matches the literal at the start of [s]; returns the last character before
    the end of the match and the rest of the text. *)
Fixpoint match_literal (ci : bool) (lit s : string) (prev : option ascii)
  : option (option ascii * string) :=
  match lit with
  | EmptyString => Some (prev, s)
  | String p lit' =>
      match s with
      | EmptyString => None
      | String c s' =>
          if char_matches ci p c then match_literal ci lit' s' (Some c) else None
      end
  end.

(** Does [\b lit \b] match at this position, [prev] being the character
    before it? *)
Definition match_word_at (ci : bool) (lit : string) (prev : option ascii)
                         (s : string) : bool :=
  boundary prev (head s)
  && match match_literal ci lit s prev with
     | Some (last, rest) => boundary last (head rest)
     | None => false
     end.

Fixpoint search_word_from (ci : bool) (lit : string) (prev : option ascii)
                          (s : string) : bool :=
  match_word_at ci lit prev s
  || match s with
     | EmptyString => false
     | String c s' => search_word_from ci lit (Some c) s'
     end.

(** [re.search(r'\b' + re.escape(lit) + r'\b', s)] is not [None] *)
Definition re_search_word (ci : bool) (lit s : string) : bool :=
  search_word_from ci lit None s.

(** [re.sub(r'\b' + lit + r'\b', rep, s)] for a non-empty literal: leftmost
    matches, not overlapping.  [skip] counts the characters of a match still
    to be passed over. *)
Fixpoint sub_word_from (ci : bool) (lit rep : string) (prev : option ascii)
                       (s : string) (skip : nat) : string :=
  match s with
  | EmptyString => EmptyString
  | String c s' =>
      match skip with
      | S k => sub_word_from ci lit rep (Some c) s' k
      | O =>
          if match_word_at ci lit prev s
          then rep +:+ sub_word_from ci lit rep (Some c) s' (String.length lit - 1)
          else String c (sub_word_from ci lit rep (Some c) s' 0)
      end
  end.

Definition re_sub_word (ci : bool) (lit rep s : string) : string :=
  sub_word_from ci lit rep None s 0.

(** The character before the end of [s], or [prev] for the empty text. *)
Fixpoint last_from (prev : option ascii) (s : string) : option ascii :=
  match s with
  | EmptyString => prev
  | String c s' => last_from (Some c) s'
  end.

(** Every character is of the class [\w]. *)
Fixpoint all_word (s : string) : bool :=
  match s with
  | EmptyString => true
  | String c s' => is_word c && all_word s'
  end.

End PyStr.


(** ** The pipeline nodes ([agents/nodes.py]) *)

Module Nodes.
Import PyStr.

(** A result table: column labels and rows of rendered cells. *)
Record DataFrame := { columns : list string; rows : list (list string) }.

(** [len(df)] and [df.empty] *)
Definition df_len (df : DataFrame) : nat := List.length (rows df).
Definition df_empty (df : DataFrame) : bool :=
  (df_len df =? 0)%nat || (List.length (columns df) =? 0)%nat.

(** The chart description returned by the visualization service (the chart
    object itself is opaque). *)
Record VizSpec :=
  { viz_type : string; x_column : string; y_column : string; viz_title : string }.

(** [query_metadata]: a key that is missing from the dict is [None] here. *)
Record Metadata :=
  { md_type : option string;
    md_complexity : option string;
    md_original_query : option string }.

(** [AgentState], with every key present as [create_initial_state] builds it;
    [None] is Python's [None].  The [messages] list is read by no stage and
    is left out. *)
Record AgentState :=
  { query : string;
    sql_query : option string;
    query_result : option DataFrame;
    insights : option string;
    visualization_spec : option VizSpec;
    error : option string;
    query_metadata : option Metadata;
    retry_count : option Z;
    previous_errors : option (list string) }.

Definition create_initial_state (q : string) : AgentState :=
  {| query := q; sql_query := None; query_result := None; insights := None;
     visualization_spec := None; error := None; query_metadata := None;
     retry_count := Some 0; previous_errors := None |}.

Definition set_sql_query (st : AgentState) (v : option string) : AgentState :=
  {| query := query st; sql_query := v; query_result := query_result st;
     insights := insights st; visualization_spec := visualization_spec st;
     error := error st; query_metadata := query_metadata st;
     retry_count := retry_count st; previous_errors := previous_errors st |}.

Definition set_query_result (st : AgentState) (v : option DataFrame) : AgentState :=
  {| query := query st; sql_query := sql_query st; query_result := v;
     insights := insights st; visualization_spec := visualization_spec st;
     error := error st; query_metadata := query_metadata st;
     retry_count := retry_count st; previous_errors := previous_errors st |}.

Definition set_insights (st : AgentState) (v : option string) : AgentState :=
  {| query := query st; sql_query := sql_query st; query_result := query_result st;
     insights := v; visualization_spec := visualization_spec st;
     error := error st; query_metadata := query_metadata st;
     retry_count := retry_count st; previous_errors := previous_errors st |}.

Definition set_visualization_spec (st : AgentState) (v : option VizSpec) : AgentState :=
  {| query := query st; sql_query := sql_query st; query_result := query_result st;
     insights := insights st; visualization_spec := v;
     error := error st; query_metadata := query_metadata st;
     retry_count := retry_count st; previous_errors := previous_errors st |}.

Definition set_error (st : AgentState) (v : option string) : AgentState :=
  {| query := query st; sql_query := sql_query st; query_result := query_result st;
     insights := insights st; visualization_spec := visualization_spec st;
     error := v; query_metadata := query_metadata st;
     retry_count := retry_count st; previous_errors := previous_errors st |}.

Definition set_retry_count (st : AgentState) (v : option Z) : AgentState :=
  {| query := query st; sql_query := sql_query st; query_result := query_result st;
     insights := insights st; visualization_spec := visualization_spec st;
     error := error st; query_metadata := query_metadata st;
     retry_count := v; previous_errors := previous_errors st |}.

Definition set_previous_errors (st : AgentState) (v : option (list string)) : AgentState :=
  {| query := query st; sql_query := sql_query st; query_result := query_result st;
     insights := insights st; visualization_spec := visualization_spec st;
     error := error st; query_metadata := query_metadata st;
     retry_count := retry_count st; previous_errors := v |}.

(** Truth value of an [Optional[str]]: [None] and the empty text are false. *)
Definition truthy (o : option string) : bool :=
  match o with
  | None => false
  | Some EmptyString => false
  | Some (String _ _) => true
  end.

(** [state.get("query_metadata", {}).get("type") if state.get("query_metadata") else None] *)
Definition metadata_type (st : AgentState) : option string :=
  match query_metadata st with
  | Some md => md_type md
  | None => None
  end.

(** *** Outcomes and exceptions *)

(** A call returns a value or raises; [Raise] carries [str(e)]. *)
Inductive result (A : Type) : Type :=
| Ok (a : A)
| Raise (msg : string).
Arguments Ok {A} a.
Arguments Raise {A} msg.

(** *** Node 6.3: validate_sql *)

Definition forbidden_keywords : list string :=
  ["DROP"; "DELETE"; "INSERT"; "UPDATE"; "ALTER"; "CREATE"; "TRUNCATE"].

(** The first keyword of the loop for which [re.search(pattern, sql)]
    succeeds.  The search runs on [sql] itself and carries no flag. *)
Definition first_forbidden (sql : string) : option string :=
  List.find (fun keyword => re_search_word false keyword sql) forbidden_keywords.

(** [sql_upper] is computed and never read; the dataset check and the
    DATEDIFF check only collect warnings. *)
Definition validate_sql (state : AgentState) : result AgentState :=
  if truthy (error state) then Ok state
  else
    match sql_query state with
    | None => Raise "'NoneType' object has no attribute 'upper'"
    | Some sql =>
        match first_forbidden sql with
        | Some keyword =>
            Ok (set_error state
                  (Some ("Query contains forbidden operation: " +:+ keyword)))
        | None =>
            if negb (contains "SELECT" sql)
            then Ok (set_error state (Some "Query must be a SELECT statement"))
            else Ok state
        end
    end.

(** *** Collaborators

    The services returned by [_get_services()].  Each call is answered by an
    oracle that sees the calls made so far ([Log]), so a collaborator may
    answer the same request differently each time. *)

Inductive Call :=
| CallExecute (sql : option string) (limit_rows : Z)
| CallSchemaContext (include_examples : bool)
| CallGenerateText (prompt : string)
| CallVisualize (df : DataFrame) (query_type : option string) (title : string).

Definition Log := list Call.

Record Services :=
  { (** [bigquery_service.execute_query(sql, limit_rows=...)] *)
    bigquery_execute_query : Log -> option string -> Z -> result DataFrame;
    (** [schema_service.build_schema_context(include_examples=...)];
        [None] when the service is missing *)
    schema_service : option (Log -> bool -> result string);
    (** [llm_service.generate_text(prompt)]; [None] when no API key is set *)
    llm_service : option (Log -> string -> result string);
    (** [VisualizationService().create_visualization(df, query_type, title)] *)
    viz_create_visualization :
      Log -> DataFrame -> option string -> string -> result (option VizSpec);
    (** [df.to_string(index=False)] of pandas *)
    df_to_string : DataFrame -> string;
    (** [config.MAX_QUERY_ROWS] *)
    MAX_QUERY_ROWS : Z }.

(** Computations that read and extend the call log and may raise. *)
Definition M (A : Type) : Type := Log -> result A * Log.

Definition ret {A} (a : A) : M A := fun log => (Ok a, log).
Definition raise {A} (msg : string) : M A := fun log => (Raise msg, log).
Definition bind {A B} (c : M A) (k : A -> M B) : M B :=
  fun log =>
    match c log with
    | (Ok a, log') => k a log'
    | (Raise msg, log') => (Raise msg, log')
    end.

Notation "'let*' x ':=' c 'in' k" := (bind c (fun x => k))
  (at level 10, x name, c at level 100, k at level 200).

Definition call_execute (svc : Services) (sql : option string) : M DataFrame :=
  fun log =>
    (bigquery_execute_query svc log sql (MAX_QUERY_ROWS svc),
     log ++ [CallExecute sql (MAX_QUERY_ROWS svc)]).

Definition call_schema_context (sch : Log -> bool -> result string)
                               (include_examples : bool) : M string :=
  fun log => (sch log include_examples, log ++ [CallSchemaContext include_examples]).

Definition call_generate_text (llm : Log -> string -> result string)
                              (prompt : string) : M string :=
  fun log => (llm log prompt, log ++ [CallGenerateText prompt]).

Definition call_visualize (svc : Services) (df : DataFrame)
                          (query_type : option string) (title : string)
  : M (option VizSpec) :=
  fun log =>
    (viz_create_visualization svc log df query_type title,
     log ++ [CallVisualize df query_type title]).

(** *** Error recovery *)

(** [prompts.sql_generation.get_error_recovery_prompt] *)
Definition get_error_recovery_prompt
    (user_query failed_query error_message schema_context : string) : string :=
  "You are a SQL expert. A previous SQL query failed with an error. Please generate a corrected query.

ORIGINAL USER QUESTION: " +:+ user_query +:+ "

FAILED QUERY:
" +:+ failed_query +:+ "

ERROR MESSAGE:
" +:+ error_message +:+ "

" +:+ schema_context +:+ "

INSTRUCTIONS:
1. Analyze the error message to understand what went wrong
2. Common issues:
   - Column name typos or incorrect table references
   - Missing JOIN conditions
   - Data type mismatches in WHERE clauses
   - Missing table aliases
   - Incorrect aggregate function usage
3. Generate a corrected SQL query that fixes the error
4. Ensure the query still answers the original user question

Return ONLY the corrected SQL query, no explanations.
".

(** The cleaning of the generated text ("Clean SQL output"). *)
Definition clean_sql_output (text : string) : string :=
  let corrected_sql := strip text in
  let corrected_sql :=
    if startswith "```sql" corrected_sql then drop 6 corrected_sql
    else if startswith "```" corrected_sql then drop 3 corrected_sql
    else corrected_sql in
  let corrected_sql :=
    if endswith "```" corrected_sql then drop_last 3 corrected_sql
    else corrected_sql in
  strip corrected_sql.

(** The body of the [try] of Fix 2 and of Fix 3 (the two are the same). *)
Definition llm_correction (sch : Log -> bool -> result string)
                          (llm : Log -> string -> result string)
                          (user_query failed_sql error_msg : string) : M string :=
  let* schema_context := call_schema_context sch false in
  let recovery_prompt :=
    get_error_recovery_prompt user_query failed_sql error_msg schema_context in
  let* corrected_sql := call_generate_text llm recovery_prompt in
  ret (clean_sql_output corrected_sql).

(** Fix 1 applies: the message or the statement names DATEDIFF. *)
Definition datediff_rule (error_msg failed_sql : string) : bool :=
  contains "DATEDIFF" (upper error_msg) || re_search_word true "DATEDIFF" failed_sql.

(** The guard of Fix 2. *)
Definition timestamp_rule (error_msg : string) : bool :=
  (contains "TIMESTAMP" error_msg && contains "DATE" error_msg)
  || contains "DATE_DIFF does not support" error_msg.

(** The guard of Fix 3. *)
Definition column_rule (error_msg : string) : bool :=
  contains "not found" (lower error_msg) || contains "column" (lower error_msg).

(** "Update state with corrected SQL" *)
Definition apply_correction (state : AgentState) (corrected_sql : string) : AgentState :=
  set_error (set_sql_query state (Some corrected_sql)) None.

Definition _recover_from_error (svc : Services) (state : AgentState)
                               (error_msg : string) : M AgentState :=
  fun log =>
  let failed_sql := sql_query state in
  let user_query := query state in
  let state :=
    set_previous_errors state
      (Some (match previous_errors state with
             | None => []
             | Some errs => errs
             end ++ [error_msg])) in
  match failed_sql with
  | None => (Raise "expected string or bytes-like object, got 'NoneType'", log)
  | Some failed_sql =>
      let corrected_sql :=
        if datediff_rule error_msg failed_sql
        then re_sub_word true "DATEDIFF" "DATE_DIFF" failed_sql
        else failed_sql in
      if timestamp_rule error_msg then
        match llm_service svc, schema_service svc with
        | Some llm, Some sch =>
            match llm_correction sch llm user_query failed_sql error_msg log with
            | (Ok corrected_sql, log') => (Ok (apply_correction state corrected_sql), log')
            | (Raise _, log') => (Ok state, log')
            end
        | _, _ => (Ok (apply_correction state corrected_sql), log)
        end
      else if column_rule error_msg then
        match llm_service svc, schema_service svc with
        | Some llm, Some sch =>
            match llm_correction sch llm user_query failed_sql error_msg log with
            | (Ok corrected_sql, log') => (Ok (apply_correction state corrected_sql), log')
            | (Raise _, log') => (Ok state, log')
            end
        | _, _ => (Ok (apply_correction state corrected_sql), log)
        end
      else (Ok (apply_correction state corrected_sql), log)
  end.

(** Notions for stating what the recovery does. *)

(** [previous_errors] after the bookkeeping at the head of the recovery. *)
Definition with_logged_error (state : AgentState) (error_msg : string) : AgentState :=
  set_previous_errors state
    (Some (match previous_errors state with None => [] | Some errs => errs end
           ++ [error_msg])).

(** The statement after Fix 1. *)
Definition pattern_fixed (error_msg failed_sql : string) : string :=
  if datediff_rule error_msg failed_sql
  then re_sub_word true "DATEDIFF" "DATE_DIFF" failed_sql
  else failed_sql.

(** The message takes the recovery to the delegated call. *)
Definition delegates (error_msg : string) : bool :=
  timestamp_rule error_msg || column_rule error_msg.

(** The errors logged so far by recoveries; each call of
    [_recover_from_error] appends one. *)
Definition logged_errors (state : AgentState) : list string :=
  match previous_errors state with None => [] | Some errs => errs end.

Definition is_execution (c : Call) : bool :=
  match c with CallExecute _ _ => true | _ => false end.

(** The number of calls to the execution collaborator in a log. *)
Definition executions (log : Log) : nat := List.length (List.filter is_execution log).

(** *** Node 6.4: execute_query *)

Definition max_retries : Z := 2.

(** The recursion of [execute_query] on itself, with a bound on its depth;
    [None] when the bound is reached. *)
Fixpoint execute_query_fuel (fuel : nat) (svc : Services) (state : AgentState)
                            (log : Log) : option (result AgentState * Log) :=
  match fuel with
  | O => None
  | S fuel' =>
      if truthy (error state) then Some (Ok state, log)
      else
        match retry_count state with
        | None =>
            Some (Raise "'>=' not supported between instances of 'NoneType' and 'int'", log)
        | Some retry_count =>
            if retry_count >=? max_retries then Some (Ok state, log)
            else
              match call_execute svc (sql_query state) log with
              | (Ok result, log1) =>
                  let state := set_query_result state (Some result) in
                  let state :=
                    if truthy (error state) then set_error state None else state in
                  Some (Ok (set_retry_count state (Some 0)), log1)
              | (Raise error_msg, log1) =>
                  let state :=
                    set_error state (Some ("Query execution failed: " +:+ error_msg)) in
                  if retry_count <? max_retries then
                    match _recover_from_error svc state error_msg log1 with
                    | (Ok state, log2) =>
                        execute_query_fuel fuel' svc
                          (set_retry_count state (Some (retry_count + 1))) log2
                    | (Raise msg, log2) => Some (Raise msg, log2)
                    end
                  else Some (Ok state, log1)
              end
        end
  end.

(** Depth that the recursion cannot exceed from [state]. *)
Definition depth_bound (state : AgentState) : nat :=
  match retry_count state with
  | Some retry_count => S (Z.to_nat (max_retries - retry_count))
  | None => 1
  end.

Definition execute_query (svc : Services) (state : AgentState) (log : Log)
  : option (result AgentState * Log) :=
  execute_query_fuel (depth_bound state) svc state log.

(** *** Node 6.5: analyze_results *)

(** [str(n)] for a length *)
Definition str_of_nat (n : nat) : string := NilEmpty.string_of_uint (Nat.to_uint n).

(** [utils.formatters.format_query_result] *)
Definition format_query_result (svc : Services) (df : DataFrame) (max_rows : nat)
  : string :=
  if df_empty df then "No results returned."
  else
    let result :=
      "Query returned " +:+ str_of_nat (df_len df) +:+ " rows with "
      +:+ str_of_nat (List.length (columns df)) +:+ " columns.

" in
    let result := result +:+ "Columns: " +:+ join ", " (columns df) +:+ "

" in
    if (df_len df <=? max_rows)%nat then
      result +:+ "Results:
" +:+ df_to_string svc df
    else
      result +:+ "First " +:+ str_of_nat max_rows +:+ " rows:
" +:+ df_to_string svc
            {| columns := columns df; rows := firstn max_rows (rows df) |}
      +:+ "

... and " +:+ str_of_nat (df_len df - max_rows) +:+ " more rows".

Definition opt_eqb (o : option string) (s : string) : bool :=
  match o with Some t => String.eqb t s | None => false end.

(** [prompts.insight_generation.get_insight_generation_prompt] *)
Definition get_insight_generation_prompt
    (user_query query_result_summary : string) (query_type : option string) : string :=
  let base_prompt :=
    "You are a business analyst. Analyze the following query results and provide actionable business insights.

USER'S QUESTION: " +:+ user_query +:+ "

QUERY RESULTS:
" +:+ query_result_summary +:+ "

INSTRUCTIONS:
- Provide 2-3 key business insights based on this data
- Be specific and use numbers from the results
- Make insights actionable (what should the business do?)
- If the results show trends, explain what they mean
- Highlight any surprising or important findings

FORMAT:
- Use bullet points for clarity
- Start each insight with a bold heading
- Include specific numbers and percentages where relevant
" in
  if opt_eqb query_type "count" then
    base_prompt +:+ "
- Focus on the scale and magnitude of the count
- Compare to expectations if relevant"
  else if opt_eqb query_type "ranking" then
    base_prompt +:+ "
- Highlight top performers and their characteristics
- Identify patterns in the ranking"
  else if opt_eqb query_type "aggregation" then
    base_prompt +:+ "
- Explain what the average/aggregate means in business context
- Compare to benchmarks if possible"
  else if opt_eqb query_type "temporal" then
    base_prompt +:+ "
- Identify trends over time
- Highlight growth, decline, or seasonal patterns"
  else if opt_eqb query_type "customer_analysis" then
    base_prompt +:+ "
- Focus on customer behavior and segmentation
- Provide recommendations for customer engagement"
  else if opt_eqb query_type "product_analysis" then
    base_prompt +:+ "
- Identify product performance patterns
- Suggest product strategy recommendations"
  else if opt_eqb query_type "sales_analysis" then
    base_prompt +:+ "
- Analyze revenue patterns
- Provide sales strategy recommendations"
  else base_prompt.

(** [get_simple_insight_template(query_type).format(count=, rows=, cols=,
    entity="items")]: the "ranking" and "aggregation" templates name fields
    that the call does not supply, and [format] raises [KeyError]. *)
Definition simple_insight (query_type : option string) (df : DataFrame)
  : result string :=
  if opt_eqb query_type "count" then
    Ok ("The query returned " +:+ str_of_nat (df_len df)
        +:+ " records. This represents the total number of items in the dataset.")
  else if opt_eqb query_type "ranking" then Raise "'n'"
  else if opt_eqb query_type "aggregation" then Raise "'avg'"
  else
    Ok ("Query returned " +:+ str_of_nat (df_len df) +:+ " rows with "
        +:+ str_of_nat (List.length (columns df))
        +:+ " columns. Review the data for specific insights.").

(** The body of the [try] of [analyze_results]: the insight text. *)
Definition generate_insights (svc : Services) (state : AgentState) (df : DataFrame)
  : M string :=
  let query_type := metadata_type state in
  match llm_service svc with
  | None => fun log => (simple_insight query_type df, log)
  | Some llm =>
      let result_summary := format_query_result svc df 10 in
      let insight_prompt :=
        get_insight_generation_prompt (query state) result_summary query_type in
      call_generate_text llm insight_prompt
  end.

Definition analyze_results (svc : Services) (state : AgentState) : M AgentState :=
  fun log =>
  if truthy (error state) then (Ok state, log)
  else
    match query_result state with
    | None => (Ok state, log)
    | Some df =>
        match generate_insights svc state df log with
        | (Ok insights, log') => (Ok (set_insights state (Some insights)), log')
        | (Raise e, log') =>
            (Ok (set_error state (Some ("Insight generation failed: " +:+ e))), log')
        end
    end.

(** *** Node 6.6: create_visualization *)

Definition create_visualization (svc : Services) (state : AgentState) : M AgentState :=
  fun log =>
  if truthy (error state) then (Ok state, log)
  else
    match query_result state with
    | None => (Ok state, log)
    | Some df =>
        match call_visualize svc df (metadata_type state) (query state) log with
        | (Ok viz_spec, log') => (Ok (set_visualization_spec state viz_spec), log')
        | (Raise _, log') => (Ok (set_visualization_spec state None), log')
        end
    end.

End Nodes.

(** ** The router ([agents/specialized_agents.py]) *)

Module SpecializedAgents.
Import PyStr Nodes.

(** [any(kw in query for kw in keywords)] *)
Definition any_in (keywords : list string) (query : string) : bool :=
  existsb (fun kw => contains kw query) keywords.

Definition geo_keywords : list string :=
  ["geographic"; "by location"; "by state"; "by country"; "by region"; "by city";
   "location"; "state"; "country"; "region"; "city"].
Definition customer_keywords : list string :=
  ["customer"; "user"; "segment"; "demographic"; "age"; "gender"].
Definition product_keywords : list string :=
  ["product"; "item"; "catalog"; "inventory"; "category"; "brand"].
Definition temporal_keywords : list string :=
  ["trend"; "over time"; "by month"; "by year"; "by day"; "growth"; "decline";
   "seasonal"].
Definition sales_keywords : list string := ["revenue"; "sales"; "income"; "profit"].

(** [query_metadata.get("type", "general") if query_metadata else "general"] *)
Definition classified_type (state : AgentState) : string :=
  match query_metadata state with
  | Some md => match md_type md with Some t => t | None => "general" end
  | None => "general"
  end.

Definition route_to_agent (state : AgentState) : string :=
  let query := lower (query state) in
  let query_type := classified_type state in
  if any_in geo_keywords query then "geographic"
  else if any_in customer_keywords query || String.eqb query_type "customer_analysis"
  then "customer_segmentation"
  else if any_in product_keywords query || String.eqb query_type "product_analysis"
  then "product_performance"
  else if any_in (temporal_keywords ++ sales_keywords) query
          || existsb (String.eqb query_type) ["temporal"; "sales_analysis"]
  then "sales_trends"
  else "general".

End SpecializedAgents.

(** ** The result cache ([services/cache_service.py])

    Tables are objects in a store: a [DataFrame] variable holds a reference,
    and [copy()] allocates a new object with the same value.  Times are
    microseconds (the resolution of [datetime]). *)

Module CacheService.
Import PyStr.

Abbreviation DataFrame := Nodes.DataFrame.
Abbreviation ref := positive.
Abbreviation Heap := (gmap positive Nodes.DataFrame).

(** Values that [**kwargs] may carry into the key. *)
Inductive JsonValue :=
| JStr (s : string)
| JInt (n : Z)
| JBool (b : bool)
| JNull.

Record CacheItem :=
  { result : ref; expires_at : Z; cached_at : Z; query : string }.

Record Cache :=
  { _query_cache : gmap string CacheItem; _ttl_seconds : Z }.

(** [CacheService(ttl_seconds)] *)
Definition init (ttl_seconds : Z) : Cache :=
  {| _query_cache := ∅; _ttl_seconds := ttl_seconds |}.

Definition with_entries (self : Cache) (m : gmap string CacheItem) : Cache :=
  {| _query_cache := m; _ttl_seconds := _ttl_seconds self |}.

(** [timedelta(seconds=s)] *)
Definition timedelta_seconds (s : Z) : Z := s * 1000000.

(** [df.copy()]: a new object; the copy of a reference to nothing (which
    Python cannot hold) allocates nothing. *)
Definition df_copy (heap : Heap) (df : ref) : ref * Heap :=
  let new := fresh (dom heap) in
  match heap !! df with
  | Some table => (new, <[new := table]> heap)
  | None => (new, heap)
  end.

Record Stats :=
  { total_entries : nat; valid_entries : nat; expired_entries : Z;
    ttl_seconds : Z }.

(** Two query texts that differ only in letter casing and in runs of
    whitespace.  A character other than whitespace faces a character with
    the same upper-case form, or a sharp s faces two letters s of either
    case, which is how [str.upper] writes it.  A run of whitespace faces a
    run of whitespace, of any length and make-up, and whitespace at the start
    and at the end of either text is free.  The flag tells that whitespace,
    or the start of the text, has just been passed on both sides. *)
Inductive same_from : bool -> string -> string -> Prop :=
| same_end sp : same_from sp EmptyString EmptyString
| same_char sp c c' s s' :
    isspace c = false -> isspace c' = false -> upper_char c = upper_char c' ->
    same_from false s s' ->
    same_from sp (String c s) (String c' s')
| same_sharp_s_l sp c a b s s' :
    is_code 223 c = true -> upper_char a = "S" -> upper_char b = "S" ->
    same_from false s s' ->
    same_from sp (String c s) (String a (String b s'))
| same_sharp_s_r sp c a b s s' :
    is_code 223 c = true -> upper_char a = "S" -> upper_char b = "S" ->
    same_from false s s' ->
    same_from sp (String a (String b s)) (String c s')
| same_space sp c c' s s' :
    isspace c = true -> isspace c' = true ->
    same_from true s s' ->
    same_from sp (String c s) (String c' s')
| same_longer_run_l c s s' :
    isspace c = true ->
    same_from true s s' ->
    same_from true (String c s) s'
| same_longer_run_r c s s' :
    isspace c = true ->
    same_from true s s' ->
    same_from true s (String c s')
| same_trailing_l sp c s :
    isspace c = true ->
    same_from sp s EmptyString ->
    same_from sp (String c s) EmptyString
| same_trailing_r sp c s' :
    isspace c = true ->
    same_from sp EmptyString s' ->
    same_from sp EmptyString (String c s').

Definition same_up_to_case_and_spacing (q q' : string) : Prop :=
  same_from true q q'.

(** Every character is whitespace. *)
Fixpoint all_space (s : string) : bool :=
  match s with
  | EmptyString => true
  | String c s' => isspace c && all_space s'
  end.

Section Service.

(** [json.dumps(cache_data, sort_keys=True)] and
    [hashlib.md5(text.encode()).hexdigest()] *)
Variable json_dumps : gmap string JsonValue -> string.
Variable md5_hexdigest : string -> string.

Definition normalize (query : string) : string := join " " (split (upper query)).

Definition _generate_cache_key (query : string) (kwargs : gmap string JsonValue)
  : string :=
  let normalized_query := normalize query in
  let cache_data := kwargs ∪ {[ "query" := JStr normalized_query ]} in
  let cache_string := json_dumps cache_data in
  md5_hexdigest cache_string.

(** [now] is the reading of [datetime.now(UTC)] inside the call. *)
Definition get_cached_result (self : Cache) (heap : Heap) (query : string)
    (kwargs : gmap string JsonValue) (now : Z) : option ref * Cache * Heap :=
  let cache_key := _generate_cache_key query kwargs in
  match _query_cache self !! cache_key with
  | None => (None, self, heap)
  | Some cached_item =>
      if decide (now > expires_at cached_item) then
        (None, with_entries self (delete cache_key (_query_cache self)), heap)
      else
        let '(result, heap') := df_copy heap (result cached_item) in
        (Some result, self, heap')
  end.

Definition cache_result (self : Cache) (heap : Heap) (query : string) (result : ref)
    (kwargs : gmap string JsonValue) (now : Z) : Cache * Heap :=
  let cache_key := _generate_cache_key query kwargs in
  let expires_at := now + timedelta_seconds (_ttl_seconds self) in
  let '(stored, heap') := df_copy heap result in
  (with_entries self
     (<[cache_key := {| result := stored; expires_at := expires_at;
                        cached_at := now; query := query |}]> (_query_cache self)),
   heap').

Definition clear_cache (self : Cache) : Cache := with_entries self ∅.

Definition get_cache_stats (self : Cache) (now : Z) : Stats :=
  let valid_entries :=
    size (filter (fun kv : string * CacheItem => expires_at kv.2 > now)
            (_query_cache self)) in
  let expired_entries := Z.of_nat (size (_query_cache self)) - Z.of_nat valid_entries in
  {| total_entries := size (_query_cache self);
     valid_entries := valid_entries;
     expired_entries := expired_entries;
     ttl_seconds := _ttl_seconds self |}.

(** Returns the cache and the number of entries removed. *)
Definition cleanup_expired (self : Cache) (now : Z) : Cache * nat :=
  let expired :=
    filter (fun kv : string * CacheItem => expires_at kv.2 <= now)
      (_query_cache self) in
  (with_entries self
     (filter (fun kv : string * CacheItem => ¬ expires_at kv.2 <= now)
        (_query_cache self)),
   size expired).

End Service.

End CacheService.

(** ** Prompt assembly ([prompts/sql_generation.py]) *)

Module Prompts.
Import PyStr Nodes.

(** The entries of [all_examples], in the order of the dict. *)
Definition examples_count : string :=
  "Example 1:
Question: Count all orders
SQL: SELECT COUNT(*) as order_count FROM `bigquery-public-data.thelook_ecommerce.orders`

Example 2:
Question: How many users are there?
SQL: SELECT COUNT(DISTINCT id) as user_count FROM `bigquery-public-data.thelook_ecommerce.users`

Example 3:
Question: Count orders by status
SQL: SELECT status, COUNT(*) as count FROM `bigquery-public-data.thelook_ecommerce.orders` GROUP BY status".

Definition examples_ranking : string :=
  "Example 1:
Question: Show top 10 products by revenue
SQL: 
SELECT 
    p.name,
    SUM(oi.sale_price) as revenue
FROM `bigquery-public-data.thelook_ecommerce.products` p
JOIN `bigquery-public-data.thelook_ecommerce.order_items` oi ON p.id = oi.product_id
GROUP BY p.name
ORDER BY revenue DESC
LIMIT 10

Example 2:
Question: Top 5 customers by total spending
SQL:
SELECT 
    u.id,
    u.first_name,
    u.last_name,
    SUM(oi.sale_price) as total_spent
FROM `bigquery-public-data.thelook_ecommerce.users` u
JOIN `bigquery-public-data.thelook_ecommerce.orders` o ON u.id = o.user_id
JOIN `bigquery-public-data.thelook_ecommerce.order_items` oi ON o.order_id = oi.order_id
GROUP BY u.id, u.first_name, u.last_name
ORDER BY total_spent DESC
LIMIT 5".

Definition examples_aggregation : string :=
  "Example 1:
Question: What is the average order value?
SQL:
SELECT 
    AVG(order_total) as avg_order_value
FROM (
    SELECT 
        o.order_id,
        SUM(oi.sale_price) as order_total
    FROM `bigquery-public-data.thelook_ecommerce.orders` o
    JOIN `bigquery-public-data.thelook_ecommerce.order_items` oi ON o.order_id = oi.order_id
    GROUP BY o.order_id
)

Example 2:
Question: Average product price
SQL: SELECT AVG(retail_price) as avg_price FROM `bigquery-public-data.thelook_ecommerce.products`".

Definition examples_temporal : string :=
  "Example 1: Sales trends over time period
Question: Show sales trends over the last 12 months
SQL:
SELECT 
    DATE_TRUNC(DATE(created_at), MONTH) as month,
    SUM(sale_price) as total_sales
FROM `bigquery-public-data.thelook_ecommerce.order_items`
WHERE DATE(created_at) >= DATE_SUB(CURRENT_DATE(), INTERVAL 12 MONTH)
GROUP BY month
ORDER BY month

Example 2: Date differences
Question: Calculate days between order and delivery
SQL:
SELECT 
    order_id,
    DATE_DIFF(DATE(delivered_at), DATE(created_at), DAY) as days_to_deliver
FROM `bigquery-public-data.thelook_ecommerce.orders`
WHERE delivered_at IS NOT NULL

Example 3: Sales by month
SQL:
SELECT 
    DATE_TRUNC(DATE(created_at), MONTH) as month,
    SUM(oi.sale_price) as total_sales
FROM `bigquery-public-data.thelook_ecommerce.orders` o
JOIN `bigquery-public-data.thelook_ecommerce.order_items` oi ON o.order_id = oi.order_id
GROUP BY month
ORDER BY month

Example 4: Daily order count
SQL:
SELECT 
    DATE(created_at) as date,
    COUNT(*) as order_count
FROM `bigquery-public-data.thelook_ecommerce.orders`
GROUP BY date
ORDER BY date DESC".

Definition examples_customer_analysis : string :=
  "Example 1:
Question: Customer segments by order count
SQL:
SELECT 
    CASE 
        WHEN order_count >= 10 THEN 'High Value'
        WHEN order_count >= 5 THEN 'Medium Value'
        ELSE 'Low Value'
    END as segment,
    COUNT(*) as customer_count
FROM (
    SELECT user_id, COUNT(*) as order_count
    FROM `bigquery-public-data.thelook_ecommerce.orders`
    GROUP BY user_id
)
GROUP BY segment".

Definition examples_product_analysis : string :=
  "Example 1:
Question: Products with low inventory
SQL:
SELECT 
    name,
    category,
    retail_price
FROM `bigquery-public-data.thelook_ecommerce.products`
WHERE cost > retail_price * 0.8
ORDER BY retail_price DESC".

Definition examples_geographic : string :=
  "Example 1: Sales by country
Question: Show sales by country
SQL:
SELECT 
    u.country,
    SUM(oi.sale_price) as total_sales
FROM `bigquery-public-data.thelook_ecommerce.users` u
JOIN `bigquery-public-data.thelook_ecommerce.orders` o ON u.id = o.user_id
JOIN `bigquery-public-data.thelook_ecommerce.order_items` oi ON o.order_id = oi.order_id
GROUP BY u.country
ORDER BY total_sales DESC

IMPORTANT: The 'country' column is in the 'users' table, NOT in the 'orders' table.
You must JOIN users table to access country information.

Example 2: Regional performance comparison
Question: Compare sales performance across different countries
SQL:
SELECT 
    u.country,
    COUNT(DISTINCT o.order_id) as order_count,
    SUM(oi.sale_price) as total_revenue,
    AVG(oi.sale_price) as avg_order_value
FROM `bigquery-public-data.thelook_ecommerce.users` u
JOIN `bigquery-public-data.thelook_ecommerce.orders` o ON u.id = o.user_id
JOIN `bigquery-public-data.thelook_ecommerce.order_items` oi ON o.order_id = oi.order_id
GROUP BY u.country
ORDER BY total_revenue DESC".

Definition all_examples : list (string * string) :=
  [("count", examples_count);
   ("ranking", examples_ranking);
   ("aggregation", examples_aggregation);
   ("temporal", examples_temporal);
   ("customer_analysis", examples_customer_analysis);
   ("product_analysis", examples_product_analysis);
   ("geographic", examples_geographic)].

(** [key in all_examples] and [all_examples[key]] *)
Definition lookup_examples (key : string) : option string :=
  match List.find (fun kv => String.eqb (fst kv) key) all_examples with
  | Some kv => Some (snd kv)
  | None => None
  end.

(** [get_few_shot_examples(query_type)]: the examples of a known type, or all
    of them for any other type, for the empty text and for [None]. *)
Definition get_few_shot_examples (query_type : option string) : string :=
  match query_type with
  | Some t =>
      match t, lookup_examples t with
      | String _ _, Some examples => examples
      | _, _ => join "

" (List.map snd all_examples)
      end
  | None => join "

" (List.map snd all_examples)
  end.

(** [get_sql_generation_prompt(user_query, schema_context, few_shot_examples)] *)
Definition get_sql_generation_prompt (user_query schema_context : string)
    (few_shot_examples : option string) : string :=
  let base_prompt :=
    "You are a SQL expert. Generate a BigQuery SQL query based on the user's question.

"
    +:+ schema_context
    +:+ "

BIGQUERY-SPECIFIC FUNCTIONS (CRITICAL - Use these exact function names):
- Use DATE_DIFF(date1, date2, date_part) NOT DATEDIFF
- Use DATE_ADD(date, INTERVAL int64 date_part) with proper types
- Use DATE_TRUNC(date, date_part) for date truncation
- Use CAST() or SAFE_CAST() for type conversions
- TIMESTAMP and DATE are different types - use CAST when comparing: CAST(timestamp_col AS DATE)
- Use EXTRACT(date_part FROM date) for date extraction
- Use DATE() function to convert TIMESTAMP to DATE: DATE(created_at)
- Use DATE_SUB(date, INTERVAL int64 date_part) for date subtraction

SAFETY RULES:
- Only use SELECT queries (no INSERT, UPDATE, DELETE, DROP, etc.)
- Always use fully qualified table names: `bigquery-public-data.thelook_ecommerce.<table_name>`
- Limit results to reasonable sizes (use LIMIT when appropriate)
- Use proper JOIN syntax when combining tables
- Handle NULL values appropriately
- When comparing dates/timestamps, ensure types match (use CAST if needed)

USER QUESTION: "
    +:+ user_query
    +:+ "

Generate a SQL query that answers this question. Return ONLY the SQL query, no explanations.
" in
  match few_shot_examples with
  | Some (String c rest) =>
      base_prompt +:+ "

EXAMPLES:
" +:+ String c rest +:+ "
"
  | _ => base_prompt
  end.

(** The lines [f"{i}. {error}"] of [enumerate(previous_errors, i)]. *)
Fixpoint numbered_errors (i : nat) (errors : list string) : list string :=
  match errors with
  | [] => []
  | error :: rest => (str_of_nat i +:+ ". " +:+ error) :: numbered_errors (S i) rest
  end.

(** A dict is true when it has a key. *)
Definition metadata_truthy (md : Metadata) : bool :=
  match md_type md, md_complexity md, md_original_query md with
  | None, None, None => false
  | _, _, _ => true
  end.

(** [build_dynamic_prompt(user_query, schema_context, query_metadata,
    previous_errors)] *)
Definition build_dynamic_prompt (user_query schema_context : string)
    (query_metadata : option Metadata) (previous_errors : option (list string))
  : string :=
  let truthy_metadata :=
    match query_metadata with
    | Some md => if metadata_truthy md then Some md else None
    | None => None
    end in
  let prompt_parts := ["You are a SQL expert. Generate a BigQuery SQL query based on the user's question."] in
  let prompt_parts := prompt_parts ++ ["
" +:+ schema_context] in
  let prompt_parts :=
    match truthy_metadata with
    | Some md =>
        let query_type := match md_type md with Some t => t | None => "general" end in
        let complexity :=
          match md_complexity md with Some c => c | None => "simple" end in
        if negb (String.eqb query_type "general") then
          prompt_parts ++ ["
QUERY TYPE: " +:+ upper query_type]
          ++ (if String.eqb complexity "complex"
              then ["NOTE: This is a complex query. Consider using CTEs or subqueries for clarity."]
              else [])
        else prompt_parts
    | None => prompt_parts
    end in
  let prompt_parts :=
    match previous_errors with
    | Some (error :: rest) =>
        prompt_parts ++ ["
PREVIOUS ERRORS TO AVOID:"]
        ++ numbered_errors 1 (error :: rest)
        ++ ["Please fix these issues in your SQL query."]
    | _ => prompt_parts
    end in
  let prompt_parts := prompt_parts ++ ["
SAFETY RULES:
- Only use SELECT queries (no INSERT, UPDATE, DELETE, DROP, etc.)
- Always use fully qualified table names: `bigquery-public-data.thelook_ecommerce.<table_name>`
- Limit results to reasonable sizes (use LIMIT when appropriate)
- Use proper JOIN syntax when combining tables
- Handle NULL values appropriately
- Use appropriate data types in WHERE clauses
"] in
  let query_type :=
    match truthy_metadata with Some md => md_type md | None => None end in
  let examples := get_few_shot_examples query_type in
  let prompt_parts :=
    match examples with
    | EmptyString => prompt_parts
    | _ => prompt_parts ++ ["
EXAMPLES:
" +:+ examples]
    end in
  let prompt_parts := prompt_parts ++ ["
USER QUESTION: " +:+ user_query] in
  let prompt_parts := prompt_parts ++ ["
Generate a SQL query that answers this question. Return ONLY the SQL query, no explanations."] in
  join "
" prompt_parts.

End Prompts.

(** ** The other nodes, the conditional edge and the specialized agents
    ([agents/nodes.py], [agents/graph.py], [agents/specialized_agents.py]) *)

Module Workflow.
Import PyStr Nodes SpecializedAgents Prompts.

Definition set_query_metadata (st : AgentState) (v : option Metadata) : AgentState :=
  {| query := query st; sql_query := sql_query st; query_result := query_result st;
     insights := insights st; visualization_spec := visualization_spec st;
     error := error st; query_metadata := v;
     retry_count := retry_count st; previous_errors := previous_errors st |}.

(** *** Node 6.1: understand_query *)

(** The type and the complexity before the check for several tables. *)
Definition classify (query : string) : string * string :=
  if any_in ["count"; "number"; "how many"] query then ("count", "simple")
  else if any_in ["top"; "best"; "highest"; "most"] query then ("ranking", "medium")
  else if any_in ["average"; "mean"; "avg"] query then ("aggregation", "medium")
  else if any_in ["trend"; "over time"; "by month"; "by year"] query
  then ("temporal", "complex")
  else if any_in ["customer"; "user"; "segment"] query
  then ("customer_analysis", "medium")
  else if any_in ["product"; "item"; "catalog"] query
  then ("product_analysis", "medium")
  else if any_in ["revenue"; "sales"; "income"] query then ("sales_analysis", "medium")
  else ("general", "simple").

Definition understand_query (state : AgentState) : AgentState :=
  let query := lower (query state) in
  let '(query_type, complexity) := classify query in
  let complexity :=
    if any_in ["join"; "with"; "and"] query then "complex" else complexity in
  set_query_metadata state
    (Some {| md_type := Some query_type;
             md_complexity := Some complexity;
             md_original_query := Some (Nodes.query state) |}).

(** *** Node 6.2: generate_sql *)

(** [LLMService.generate_sql(user_query, schema_context)]: the prompt with all
    the few-shot examples, one text generation, and the cleaning of the
    answer; an exception is raised again as it is. *)
Definition llm_generate_sql (llm : Log -> string -> result string)
                            (user_query schema_context : string) : M string :=
  let prompt :=
    get_sql_generation_prompt user_query schema_context
      (Some (get_few_shot_examples None)) in
  let* sql := call_generate_text llm prompt in
  ret (clean_sql_output sql).

(** The body of the [try] of [generate_sql]. *)
Definition generate_sql_body (svc : Services) (llm : Log -> string -> result string)
                             (state : AgentState) : M string :=
  match schema_service svc with
  | None => raise "'NoneType' object has no attribute 'build_schema_context'"
  | Some sch =>
      let* schema_context := call_schema_context sch true in
      llm_generate_sql llm (query state) schema_context
  end.

(** [services] is the outcome of [_get_services()], which the node calls
    before its [try]: the constructor of the BigQuery service raises when the
    credentials are missing, and nothing catches that here (only the
    ValueError of the text-generation service is caught, and leaves that
    service [None]). *)
Definition generate_sql (services : result Services) (state : AgentState)
  : M AgentState :=
  fun log =>
  match services with
  | Raise e => (Raise e, log)
  | Ok svc =>
      match llm_service svc with
      | None =>
          (Ok (set_error state
                 (Some "LLM service not available. Please set GOOGLE_API_KEY.")), log)
      | Some llm =>
          match generate_sql_body svc llm state log with
          | (Ok sql, log') => (Ok (set_sql_query state (Some sql)), log')
          | (Raise e, log') =>
              (Ok (set_error state (Some ("SQL generation failed: " +:+ e))), log')
          end
      end
  end.

(** *** The conditional edge: should_continue *)

Definition should_continue (state : AgentState) : string :=
  if truthy (error state) then "end"
  else
    match sql_query state with
    | None => "generate_sql"
    | Some sql =>
        match query_result state with
        | None => if truthy (Some sql) then "execute_query" else "end"
        | Some _ =>
            match insights state with
            | None => "analyze_results"
            | Some _ => "create_visualization"
            end
        end
    end.

(** *** The specialized agents *)

(** [state["query_metadata"]["type"] = ...; ["complexity"] = ...] on the dict
    that is there. *)
Definition override_classification (query_type complexity : string)
                                   (state : AgentState) : AgentState :=
  match query_metadata state with
  | Some md =>
      set_query_metadata state
        (Some {| md_type := Some query_type;
                 md_complexity := Some complexity;
                 md_original_query := md_original_query md |})
  | None => state
  end.

(** [not state.get("query_metadata")] *)
Definition lacks_metadata (state : AgentState) : bool :=
  match query_metadata state with
  | Some md => negb (metadata_truthy md)
  | None => true
  end.

(** The generation step of an agent: the schema context, the dynamic prompt
    (passed through [finish_prompt]), one text generation, the cleaning.  No
    exception is caught here. *)
Definition agent_generate (finish_prompt : string -> string)
    (sch : Log -> bool -> result string) (llm : Log -> string -> result string)
    (state : AgentState) : M AgentState :=
  let* schema_context := call_schema_context sch true in
  let prompt :=
    finish_prompt
      (build_dynamic_prompt (query state) schema_context (query_metadata state)
         (previous_errors state)) in
  let* sql := call_generate_text llm prompt in
  ret (set_sql_query state (Some (clean_sql_output sql))).

(** "Continue with standard workflow".  [None] only if [execute_query]
    reached the bound of its recursion. *)
Definition standard_workflow (svc : Services) (state : AgentState) (log : Log)
  : option (result AgentState * Log) :=
  match validate_sql state with
  | Raise e => Some (Raise e, log)
  | Ok state =>
      if negb (truthy (error state)) then
        match execute_query svc state log with
        | None => None
        | Some (Raise e, log') => Some (Raise e, log')
        | Some (Ok state, log') =>
            if negb (truthy (error state)) then
              match analyze_results svc state log' with
              | (Raise e, log'') => Some (Raise e, log'')
              | (Ok state, log'') => Some (create_visualization svc state log'')
              end
            else Some (Ok state, log')
        end
      else Some (Ok state, log)
  end.

(** The common text of the four agents. *)
Definition specialized_agent (query_type complexity : string)
    (finish_prompt : string -> string) (svc : Services) (state : AgentState)
    (log : Log) : option (result AgentState * Log) :=
  let state := if lacks_metadata state then understand_query state else state in
  let state := override_classification query_type complexity state in
  match llm_service svc, schema_service svc with
  | Some llm, Some sch =>
      match agent_generate finish_prompt sch llm state log with
      | (Raise e, log') => Some (Raise e, log')
      | (Ok state, log') => standard_workflow svc state log'
      end
  | _, _ => standard_workflow svc state log
  end.

Definition customer_segmentation_agent :=
  specialized_agent "customer_analysis" "medium" (fun prompt => prompt).

Definition product_performance_agent :=
  specialized_agent "product_analysis" "medium" (fun prompt => prompt).

Definition sales_trends_agent :=
  specialized_agent "temporal" "complex" (fun prompt => prompt).

Definition geographic_analysis_agent :=
  specialized_agent "geographic" "medium"
    (fun prompt => prompt +:+ "

GEOGRAPHIC ANALYSIS GUIDANCE:
- Use state, country, or region columns from users or orders tables
- Group by geographic location
- Consider using geographic visualizations (maps if supported)
").

(** The state with which an agent starts its generation step. *)
Definition agent_entry (query_type complexity : string) (state : AgentState)
  : AgentState :=
  override_classification query_type complexity
    (if lacks_metadata state then understand_query state else state).

(** Notions for stating what the stages do. *)

(** The fields that no stage after the generation writes. *)
Definition same_request (a b : AgentState) : Prop :=
  query a = query b /\ query_metadata a = query_metadata b.

(** The statement of the first call to the execution collaborator in a log. *)
Definition first_execution (log : Log) : option (option string) :=
  match List.filter is_execution log with
  | CallExecute sql _ :: _ => Some sql
  | _ => None
  end.

(** A statement that [validate_sql] lets through. *)
Definition validated (sql : option string) : bool :=
  match sql with
  | Some s =>
      match first_forbidden s with
      | None => contains "SELECT" s
      | Some _ => false
      end
  | None => false
  end.

End Workflow.

(** ** Sample inputs *)

Module Samples.
Import Nodes.

Definition state_with_sql (q sql : string) : AgentState :=
  set_sql_query (create_initial_state q) (Some sql).

Definition orders_table : DataFrame :=
  {| columns := ["status"; "orders"];
     rows := [["Complete"; "12"]; ["Shipped"; "7"]] |}.

(** Services with no text generation and no schema service, and an execution
    collaborator that raises [msg] on every call. *)
Definition failing_services (msg : string) : Services :=
  {| bigquery_execute_query := fun _ _ _ => Raise msg;
     schema_service := None;
     llm_service := None;
     viz_create_visualization := fun _ _ _ _ => Ok None;
     df_to_string := fun _ => EmptyString;
     MAX_QUERY_ROWS := 10000 |}.

(** All services present; execution raises [msg], text generation answers
    [llm], visualization answers [viz]. *)
Definition services (msg : string) (llm : result string)
                    (viz : result (option VizSpec)) : Services :=
  {| bigquery_execute_query := fun _ _ _ => Raise msg;
     schema_service := Some (fun _ _ => Ok "SCHEMA: orders(order_id, status)");
     llm_service := Some (fun _ _ => llm);
     viz_create_visualization := fun _ _ _ _ => viz;
     df_to_string := fun _ => EmptyString;
     MAX_QUERY_ROWS := 10000 |}.

(** No text generation and no schema service; the execution collaborator
    rejects a statement that calls DATEDIFF and answers any other one. *)
Definition datediff_services : Services :=
  {| bigquery_execute_query :=
       fun _ sql _ =>
         match sql with
         | Some s =>
             if PyStr.re_search_word true "DATEDIFF" s
             then Raise "Function not found: DATEDIFF at [1:8]"
             else Ok orders_table
         | None => Raise "no statement"
         end;
     schema_service := None;
     llm_service := None;
     viz_create_visualization := fun _ _ _ _ => Ok None;
     df_to_string := fun _ => EmptyString;
     MAX_QUERY_ROWS := 10000 |}.

(** No text generation and no schema service; the first execution raises
    [msg], every later one answers [orders_table]. *)
Definition flaky_services (msg : string) : Services :=
  {| bigquery_execute_query :=
       fun log _ _ =>
         match executions log with
         | O => Raise msg
         | S _ => Ok orders_table
         end;
     schema_service := None;
     llm_service := None;
     viz_create_visualization := fun _ _ _ _ => Ok None;
     df_to_string := fun _ => EmptyString;
     MAX_QUERY_ROWS := 10000 |}.

(** A fresh state that carries a classification. *)
Definition classified_state (q : string) (query_type : string) : AgentState :=
  {| query := q; sql_query := None; query_result := None; insights := None;
     visualization_spec := None; error := None;
     query_metadata :=
       Some {| md_type := Some query_type; md_complexity := Some "medium";
               md_original_query := Some q |};
     retry_count := Some 0; previous_errors := None |}.

(** A stand-in for [json.dumps] and [md5] on the key material. *)
Definition sample_json_dumps (data : gmap string CacheService.JsonValue) : string :=
  match data !! "query" with
  | Some (CacheService.JStr s) => s
  | _ => EmptyString
  end.
Definition sample_digest (s : string) : string := s.

Definition one_table_heap : gmap positive DataFrame := {[ 1%positive := orders_table ]}.
Definition other_table : DataFrame := {| columns := ["x"]; rows := [] |}.

End Samples.

(** ** Facts about the string operations *)

Module PyStrFacts.
Import PyStr.

Lemma startswith_app (p s : string) : startswith p (p +:+ s) = true.
Proof.
  induction p as [|c p IH]; simpl; [reflexivity|].
  rewrite Ascii.eqb_refl. exact IH.
Qed.

Lemma contains_prefix (x s : string) : contains x (x +:+ s) = true.
Proof.
  destruct x as [|c x]; destruct s as [|d s]; simpl;
    rewrite ?Ascii.eqb_refl, ?startswith_app; reflexivity.
Qed.

Lemma contains_app_r (x a s : string) :
  contains x s = true -> contains x (a +:+ s) = true.
Proof.
  intros H. induction a as [|c a IH]; simpl; [exact H|].
  rewrite IH. apply orb_true_r.
Qed.

(** A text occurs in whatever is built around it. *)
Lemma contains_mid (x a b : string) : contains x (a +:+ x +:+ b) = true.
Proof. apply contains_app_r, contains_prefix. Qed.

Lemma isspace_to_upper (c : ascii) : isspace (to_upper c) = isspace c.
Proof.
  destruct c as [b0 b1 b2 b3 b4 b5 b6 b7].
  destruct b0, b1, b2, b3, b4, b5, b6, b7; reflexivity.
Qed.

Lemma upper_char_space (c : ascii) :
  isspace c = true -> upper_char c = String (to_upper c) EmptyString.
Proof.
  destruct c as [b0 b1 b2 b3 b4 b5 b6 b7].
  destruct b0, b1, b2, b3, b4, b5, b6, b7; intros H; first [reflexivity | discriminate H].
Qed.

Lemma upper_char_sharp_s (c : ascii) : is_code 223 c = true -> upper_char c = "SS".
Proof. intros H. unfold upper_char. now rewrite H. Qed.

(** *** [upper] and the code points of [str.upper] *)

Lemma point_inj (c c' : ascii) : point c = point c' -> c = c'.
Proof.
  assert (Hsmall : forall x : ascii, (code x < 256)%N)
    by (intros x; apply N_ascii_bounded).
  assert (Hcode : forall x y : ascii, code x = code y -> x = y).
  { intros x y H. rewrite <- (ascii_N_embedding x), <- (ascii_N_embedding y).
    unfold code in H. now rewrite H. }
  unfold point, is_code. intros H. apply Hcode.
  pose proof (Hsmall c) as Hc. pose proof (Hsmall c') as Hc'.
  destruct (N.eqb_spec (code c) 181), (N.eqb_spec (code c) 255),
    (N.eqb_spec (code c') 181), (N.eqb_spec (code c') 255); lia.
Qed.

Lemma points_inj (s : string) : forall s', points s = points s' -> s = s'.
Proof.
  induction s as [|c s IH]; intros [|c' s'] H; cbn in H; try discriminate.
  - reflexivity.
  - injection H as Hc Hs. apply point_inj in Hc. apply IH in Hs. congruence.
Qed.

Lemma points_app (a b : string) : points (a +:+ b) = points a ++ points b.
Proof.
  induction a as [|x a IH]; [reflexivity|].
  change (point x :: points (a +:+ b) = point x :: (points a ++ points b)).
  now rewrite IH.
Qed.

Lemma upper_points_char_spec (c : ascii) : upper_points_char c = points (upper_char c).
Proof.
  destruct c as [b0 b1 b2 b3 b4 b5 b6 b7].
  destruct b0, b1, b2, b3, b4, b5, b6, b7; reflexivity.
Qed.

(** [upper] writes the text that [str.upper] gives. *)
Lemma upper_points_spec (s : string) : upper_points s = points (upper s).
Proof.
  induction s as [|c s IH]; [reflexivity|].
  cbn [upper upper_points]. now rewrite points_app, upper_points_char_spec, IH.
Qed.

(** Two texts have the same [upper] exactly when [str.upper] gives them the
    same code points. *)
Lemma upper_eq_iff (s s' : string) :
  upper s = upper s' <-> upper_points s = upper_points s'.
Proof.
  rewrite !upper_points_spec. split; [now intros ->|apply points_inj].
Qed.

(** A longer run of whitespace splits like a shorter one. *)
Lemma split_from_longer_run (cur : string) (c d : ascii) (s : string) :
  isspace c = true -> isspace d = true ->
  split_from cur (String c (String d s)) = split_from cur (String d s).
Proof.
  intros Hc Hd. simpl. rewrite Hc, Hd. destruct cur; reflexivity.
Qed.

(** *** Whole-word matches *)

Lemma match_literal_exact (lit : string) :
  forall (s : string) (prev last : option ascii) (rest : string),
    match_literal false lit s prev = Some (last, rest) ->
    s = lit +:+ rest /\ last = last_from prev lit.
Proof.
  induction lit as [|p lit IH]; intros s prev last rest H; cbn in *.
  - now injection H as <- <-.
  - destruct s as [|c s]; [discriminate|].
    destruct (Ascii.eqb p c) eqn:Hpc; [|discriminate].
    apply Ascii.eqb_eq in Hpc. subst c.
    destruct (IH _ _ _ _ H) as [-> ->]. split; reflexivity.
Qed.

(** A successful search has found the literal between two word boundaries. *)
Lemma search_word_from_exact (lit : string) :
  forall (s : string) (prev : option ascii),
    search_word_from false lit prev s = true ->
    exists pre post : string,
      s = pre +:+ lit +:+ post
      /\ boundary (last_from prev pre) (head (lit +:+ post)) = true
      /\ boundary (last_from (last_from prev pre) lit) (head post) = true.
Proof.
  assert (Hhere : forall s prev, match_word_at false lit prev s = true ->
            exists post, s = lit +:+ post
              /\ boundary prev (head (lit +:+ post)) = true
              /\ boundary (last_from prev lit) (head post) = true).
  { intros s prev H. unfold match_word_at in H. apply andb_true_iff in H as [Hb Hm].
    destruct (match_literal false lit s prev) as [[last rest]|] eqn:Hlit; [|discriminate].
    destruct (match_literal_exact _ _ _ _ _ Hlit) as [-> ->]. eauto. }
  induction s as [|c s IH]; intros prev H; cbn [search_word_from] in H.
  - rewrite orb_false_r in H. destruct (Hhere _ _ H) as (post & Hs & Hb1 & Hb2).
    exists EmptyString, post. auto.
  - apply orb_true_iff in H as [H|H].
    + destruct (Hhere _ _ H) as (post & Hs & Hb1 & Hb2).
      exists EmptyString, post. auto.
    + destruct (IH _ H) as (pre & post & -> & Hb1 & Hb2).
      exists (String c pre), post. auto.
Qed.

Lemma head_all_word (lit post : string) :
  lit <> EmptyString -> all_word lit = true ->
  is_word_opt (head (lit +:+ post)) = true.
Proof.
  destruct lit as [|c lit]; [congruence|]. cbn. intros _ H.
  now apply andb_true_iff in H as [H _].
Qed.

Lemma last_all_word (lit : string) :
  forall prev, lit <> EmptyString -> all_word lit = true ->
  is_word_opt (last_from prev lit) = true.
Proof.
  induction lit as [|c lit IH]; intros prev Hne H; [congruence|].
  cbn in *. apply andb_true_iff in H as [Hc H].
  destruct lit as [|d lit]; [exact Hc|]. apply IH; [discriminate|exact H].
Qed.

(** A word that stands in the text only with a word character right before
    or right after it is not found by the whole-word search. *)
Lemma inside_identifier_not_matched (lit sql : string) :
  lit <> EmptyString -> all_word lit = true ->
  (forall pre post : string,
      sql = pre +:+ lit +:+ post ->
      is_word_opt (last_from None pre) = true \/ is_word_opt (head post) = true) ->
  re_search_word false lit sql = false.
Proof.
  intros Hne Hword Hinside.
  destruct (re_search_word false lit sql) eqn:Hsearch; [exfalso|reflexivity].
  destruct (search_word_from_exact _ _ _ Hsearch) as (pre & post & Hs & Hb1 & Hb2).
  unfold boundary in Hb1, Hb2.
  rewrite (head_all_word _ _ Hne Hword) in Hb1.
  rewrite (last_all_word _ _ Hne Hword) in Hb2.
  destruct (Hinside pre post Hs) as [H|H]; rewrite H in *; discriminate.
Qed.

Lemma match_literal_self (lit : string) :
  forall (post : string) (prev : option ascii),
    match_literal false lit (lit +:+ post) prev = Some (last_from prev lit, post).
Proof.
  induction lit as [|p lit IH]; intros post prev; [reflexivity|].
  change (match_literal false (String p lit) (String p (lit +:+ post)) prev
          = Some (last_from (Some p) lit, post)).
  cbn [match_literal char_matches]. rewrite Ascii.eqb_refl. apply IH.
Qed.

(** A word that stands in the text with no word character right before it and
    none right after it is found by the whole-word search. *)
Lemma whole_word_is_found (lit pre post : string) :
  lit <> EmptyString -> all_word lit = true ->
  is_word_opt (last_from None pre) = false ->
  is_word_opt (head post) = false ->
  re_search_word false lit (pre +:+ lit +:+ post) = true.
Proof.
  intros Hne Hword Hbefore Hafter. unfold re_search_word.
  revert Hbefore. generalize (@None ascii) as prev.
  induction pre as [|c pre IH]; intros prev Hbefore.
  - change (search_word_from false lit prev (lit +:+ post) = true).
    assert (Hhere : match_word_at false lit prev (lit +:+ post) = true).
    { unfold match_word_at, boundary. rewrite match_literal_self.
      rewrite (head_all_word _ _ Hne Hword), (last_all_word _ _ Hne Hword), Hafter.
      cbn in Hbefore. rewrite Hbefore. reflexivity. }
    destruct (lit +:+ post); cbn [search_word_from]; now rewrite Hhere.
  - change (search_word_from false lit prev (String c (pre +:+ lit +:+ post)) = true).
    cbn [search_word_from]. rewrite (IH (Some c) Hbefore). apply orb_true_r.
Qed.

(** *** Reversal, stripping and fences *)

Lemma append_assoc (a b c : string) : (a +:+ b) +:+ c = a +:+ b +:+ c.
Proof.
  induction a as [|x a IH]; [reflexivity|].
  change (String x ((a +:+ b) +:+ c) = String x (a +:+ b +:+ c)). now f_equal.
Qed.

Lemma append_empty_r (a : string) : a +:+ EmptyString = a.
Proof.
  induction a as [|x a IH]; [reflexivity|].
  change (String x (a +:+ EmptyString) = String x a). now f_equal.
Qed.

Lemma rev_onto_spec (s : string) : forall acc, rev_onto s acc = rev s +:+ acc.
Proof.
  unfold rev. induction s as [|c s IH]; intros acc; cbn; [reflexivity|].
  rewrite IH, (IH (String c EmptyString)), append_assoc. reflexivity.
Qed.

Lemma rev_cons (c : string -> string) (x : ascii) (s : string) :
  rev (String x s) = rev s +:+ String x EmptyString.
Proof. unfold rev at 1. cbn. apply rev_onto_spec. Qed.

Lemma rev_app (a b : string) : rev (a +:+ b) = rev b +:+ rev a.
Proof.
  induction a as [|x a IH].
  - change (rev b = rev b +:+ EmptyString). now rewrite append_empty_r.
  - change (rev (String x (a +:+ b)) = rev b +:+ rev (String x a)).
    rewrite !(rev_cons id), IH, append_assoc. reflexivity.
Qed.

Lemma rev_involutive (s : string) : rev (rev s) = s.
Proof.
  induction s as [|x s IH]; [reflexivity|].
  rewrite (rev_cons id), rev_app, IH. reflexivity.
Qed.

(** [strip] leaves a text alone that neither starts nor ends with
    whitespace. *)
Lemma strip_tight (c d : ascii) (m : string) :
  isspace c = false -> isspace d = false ->
  strip (String c (m +:+ String d EmptyString)) = String c (m +:+ String d EmptyString).
Proof.
  intros Hc Hd. set (s := String c (m +:+ String d EmptyString)).
  assert (Hrev : rev s = String d (rev m +:+ String c EmptyString)).
  { unfold s. rewrite (rev_cons id), rev_app. reflexivity. }
  assert (Hleft : lstrip s = s) by (unfold s; cbn [lstrip]; now rewrite Hc).
  unfold strip. rewrite Hleft, Hrev. cbn [lstrip]. rewrite Hd, <- Hrev.
  apply rev_involutive.
Qed.

Lemma endswith_fence (s : string) : endswith "```" (s +:+ "```") = true.
Proof. unfold endswith. rewrite rev_app. reflexivity. Qed.

Lemma drop_last_fence (s : string) : drop_last 3 (s +:+ "```") = s.
Proof. unfold drop_last. rewrite rev_app. cbn. apply rev_involutive. Qed.

End PyStrFacts.

(** ** Facts about the result cache *)

Module CacheFacts.
Import PyStr PyStrFacts CacheService.

(** A character that is no whitespace keeps the run going: its upper-case
    form is read into the run. *)
Lemma split_from_upper_char (c : ascii) (cur t : string) :
  isspace c = false ->
  split_from cur (upper_char c +:+ t) = split_from (rev (upper_char c) +:+ cur) t.
Proof.
  intros Hc. unfold upper_char. destruct (is_code 223 c).
  - reflexivity.
  - change (split_from cur (String (to_upper c) t)
            = split_from (String (to_upper c) cur) t).
    cbn [split_from]. now rewrite isspace_to_upper, Hc.
Qed.

Lemma split_from_upper_space (c : ascii) (cur t : string) :
  isspace c = true ->
  split_from cur (upper_char c +:+ t)
  = match cur with
    | EmptyString => split_from EmptyString t
    | _ => rev cur :: split_from EmptyString t
    end.
Proof.
  intros Hc. rewrite (upper_char_space _ Hc).
  change (split_from cur (String (to_upper c) t) = match cur with
                                                   | EmptyString => split_from EmptyString t
                                                   | _ => rev cur :: split_from EmptyString t
                                                   end).
  cbn [split_from]. now rewrite isspace_to_upper, Hc.
Qed.

Lemma split_upper_same (sp : bool) (s s' : string) :
  same_from sp s s' ->
  forall cur, (sp = true -> cur = EmptyString) ->
    split_from cur (upper s) = split_from cur (upper s').
Proof.
  induction 1 as [ sp
                 | sp c c' s s' Hc Hc' Hup _ IH
                 | sp c a b s s' Hc Ha Hb _ IH
                 | sp c a b s s' Hc Ha Hb _ IH
                 | sp c c' s s' Hc Hc' _ IH
                 | c s s' Hc _ IH
                 | c s s' Hc _ IH
                 | sp c s Hc _ IH
                 | sp c s' Hc _ IH ]; intros cur Hcur.
  - reflexivity.
  - cbn [upper]. rewrite !split_from_upper_char by assumption.
    rewrite Hup. apply IH. discriminate.
  - cbn [upper]. rewrite (upper_char_sharp_s _ Hc), Ha, Hb.
    change (split_from (String "S" (String "S" cur)) (upper s)
            = split_from (String "S" (String "S" cur)) (upper s')).
    apply IH. discriminate.
  - cbn [upper]. rewrite (upper_char_sharp_s _ Hc), Ha, Hb.
    change (split_from (String "S" (String "S" cur)) (upper s)
            = split_from (String "S" (String "S" cur)) (upper s')).
    apply IH. discriminate.
  - cbn [upper]. rewrite !split_from_upper_space by assumption.
    rewrite (IH EmptyString) by reflexivity. reflexivity.
  - rewrite (Hcur eq_refl). cbn [upper]. rewrite split_from_upper_space by assumption.
    apply IH. reflexivity.
  - rewrite (Hcur eq_refl). cbn [upper]. rewrite split_from_upper_space by assumption.
    apply IH. reflexivity.
  - cbn [upper]. rewrite split_from_upper_space by assumption.
    assert (Hrest : split_from EmptyString (upper s) = [])
      by (now apply (IH EmptyString)).
    rewrite Hrest. destruct cur; reflexivity.
  - cbn [upper]. rewrite split_from_upper_space by assumption.
    assert (Hrest : [] = split_from EmptyString (upper s'))
      by (now apply (IH EmptyString)).
    rewrite <- Hrest. destruct cur; reflexivity.
Qed.

(** What the relation holds: a text and itself, a text and the same text
    with whitespace around it, a text and its upper-case form. *)
Lemma same_from_refl (q : string) : forall sp, same_from sp q q.
Proof.
  induction q as [|c q IH]; intros sp; [apply same_end|].
  destruct (isspace c) eqn:Hc.
  - apply same_space; auto.
  - apply same_char; auto.
Qed.

Lemma same_from_trailing (r : string) :
  all_space r = true -> forall sp, same_from sp r EmptyString.
Proof.
  induction r as [|c r IH]; intros H sp; [apply same_end|].
  cbn in H. apply andb_true_iff in H as [Hc Hr].
  apply same_trailing_l; auto.
Qed.

Lemma same_from_padded_r (q r : string) :
  all_space r = true -> forall sp, same_from sp (q +:+ r) q.
Proof.
  intros Hr. induction q as [|c q IH]; intros sp.
  - now apply same_from_trailing.
  - change (same_from sp (String c (q +:+ r)) (String c q)).
    destruct (isspace c) eqn:Hc.
    + apply same_space; auto.
    + apply same_char; auto.
Qed.

Lemma same_up_to_outer_space (l q r : string) :
  all_space l = true -> all_space r = true ->
  same_up_to_case_and_spacing (l +:+ q +:+ r) q.
Proof.
  intros Hl Hr. unfold same_up_to_case_and_spacing.
  induction l as [|c l IH].
  - change (same_from true (q +:+ r) q). now apply same_from_padded_r.
  - cbn in Hl. apply andb_true_iff in Hl as [Hc Hl].
    change (same_from true (String c (l +:+ q +:+ r)) q).
    apply same_longer_run_l; auto.
Qed.

Lemma upper_char_to_upper (c : ascii) :
  is_code 223 c = false -> upper_char c = upper_char (to_upper c).
Proof.
  destruct c as [b0 b1 b2 b3 b4 b5 b6 b7].
  destruct b0, b1, b2, b3, b4, b5, b6, b7; intros H;
    first [reflexivity | discriminate H].
Qed.

Lemma same_from_upper (q : string) : forall sp, same_from sp q (upper q).
Proof.
  induction q as [|c q IH]; intros sp; [apply same_end|].
  cbn [upper]. destruct (is_code 223 c) eqn:Hss.
  - rewrite (upper_char_sharp_s _ Hss).
    change (same_from sp (String c q) (String "S" (String "S" (upper q)))).
    apply same_sharp_s_l; auto.
  - unfold upper_char. rewrite Hss.
    change (same_from sp (String c q) (String (to_upper c) (upper q))).
    destruct (isspace c) eqn:Hc.
    + apply same_space; auto. now rewrite isspace_to_upper.
    + apply same_char; auto.
      * now rewrite isspace_to_upper.
      * now apply upper_char_to_upper.
Qed.

Lemma same_up_to_upper (q : string) : same_up_to_case_and_spacing q (upper q).
Proof. apply same_from_upper. Qed.

(** Texts that differ only in casing and spacing have one normal form. *)
Lemma normalize_same (q q' : string) :
  same_up_to_case_and_spacing q q' -> normalize q = normalize q'.
Proof.
  intros H. unfold normalize, split.
  now rewrite (split_upper_same _ _ _ H EmptyString (fun _ => eq_refl)).
Qed.


Section Service.

Variable json_dumps : gmap string JsonValue -> string.
Variable md5_hexdigest : string -> string.

Local Abbreviation key_of := (_generate_cache_key json_dumps md5_hexdigest).
Local Abbreviation get := (get_cached_result json_dumps md5_hexdigest).
Local Abbreviation put := (cache_result json_dumps md5_hexdigest).

(** Formatting and casing do not change the key. *)
Lemma cache_key_same (q q' : string) (kwargs : gmap string JsonValue) :
  same_up_to_case_and_spacing q q' -> key_of q kwargs = key_of q' kwargs.
Proof.
  intros H. unfold _generate_cache_key. now rewrite (normalize_same _ _ H).
Qed.

Lemma df_copy_some (heap : Heap) (df : ref) (table : DataFrame) :
  heap !! df = Some table ->
  df_copy heap df = (fresh (dom heap), <[fresh (dom heap) := table]> heap).
Proof. intros H. unfold df_copy. now rewrite H. Qed.

Lemma fresh_not_allocated (heap : Heap) (l : ref) (table : DataFrame) :
  heap !! l = Some table -> fresh (dom heap) ≠ l.
Proof.
  intros H Heq. apply (is_fresh (dom heap)). rewrite Heq.
  apply elem_of_dom. eauto.
Qed.

(** A lookup past the expiry time answers nothing and removes the entry. *)
Lemma get_expired (self : Cache) (heap : Heap) (q : string)
    (kwargs : gmap string JsonValue) (now : Z) (item : CacheItem) :
  _query_cache self !! key_of q kwargs = Some item ->
  now > expires_at item ->
  get self heap q kwargs now
  = (None, with_entries self (delete (key_of q kwargs) (_query_cache self)), heap).
Proof.
  intros Hit Hexp. unfold get_cached_result. rewrite Hit.
  destruct (decide (now > expires_at item)) as [_|Hno]; [reflexivity|contradiction].
Qed.

(** A lookup not past the expiry time answers a new object that holds the
    stored table, and leaves the cache as it was. *)
Lemma get_valid (self : Cache) (heap : Heap) (q : string)
    (kwargs : gmap string JsonValue) (now : Z) (item : CacheItem)
    (table : DataFrame) :
  _query_cache self !! key_of q kwargs = Some item ->
  heap !! result item = Some table ->
  now <= expires_at item ->
  get self heap q kwargs now
  = (Some (fresh (dom heap)), self, <[fresh (dom heap) := table]> heap).
Proof.
  intros Hit Hobj Hnow. unfold get_cached_result. rewrite Hit.
  destruct (decide (now > expires_at item)) as [Hexp|_]; [lia|].
  now rewrite (df_copy_some _ _ _ Hobj).
Qed.

Lemma put_spec (self : Cache) (heap : Heap) (q : string) (r : ref)
    (kwargs : gmap string JsonValue) (now : Z) (table : DataFrame) :
  heap !! r = Some table ->
  put self heap q r kwargs now
  = (with_entries self
       (<[key_of q kwargs :=
            {| result := fresh (dom heap);
               expires_at := now + timedelta_seconds (_ttl_seconds self);
               cached_at := now; query := q |}]> (_query_cache self)),
     <[fresh (dom heap) := table]> heap).
Proof.
  intros H. unfold cache_result. now rewrite (df_copy_some _ _ _ H).
Qed.

(** The count of expired entries is the count of entries whose expiry time
    is not after [now]. *)
Lemma stats_expired (self : Cache) (now : Z) :
  expired_entries (get_cache_stats self now)
  = Z.of_nat (size (filter (fun kv : string * CacheItem => expires_at kv.2 <= now)
                      (_query_cache self))).
Proof.
  unfold get_cache_stats. cbn [expired_entries].
  set (m := _query_cache self).
  set (P := fun kv : string * CacheItem => expires_at kv.2 > now).
  assert (Hsplit : size m = (size (filter P m) + size (filter (fun kv => ¬ P kv) m))%nat).
  { rewrite <- map_size_disj_union by apply map_disjoint_filter_complement.
    now rewrite map_filter_union_complement. }
  assert (Hsame : filter (fun kv => ¬ P kv) m
                  = filter (fun kv : string * CacheItem => expires_at kv.2 <= now) m).
  { apply map_filter_ext. intros k item _. unfold P. cbn. lia. }
  rewrite Hsplit, Hsame. lia.
Qed.

(** The entries that the statistics count as expired are those past their
    expiry time and those whose expiry time is [now]. *)
Lemma stats_expired_split (self : Cache) (now : Z) :
  expired_entries (get_cache_stats self now)
  = Z.of_nat (size (filter (fun kv : string * CacheItem => now > expires_at kv.2)
                      (_query_cache self)))
    + Z.of_nat (size (filter (fun kv : string * CacheItem => expires_at kv.2 = now)
                        (_query_cache self))).
Proof.
  rewrite stats_expired. set (m := _query_cache self).
  assert (Hdisj : filter (fun kv : string * CacheItem => now > expires_at kv.2) m
                  ##ₘ filter (fun kv : string * CacheItem => expires_at kv.2 = now) m).
  { apply map_disjoint_spec. intros k x y Hx Hy.
    apply map_lookup_filter_Some in Hx as [Hx Hpx].
    apply map_lookup_filter_Some in Hy as [Hy Hpy].
    rewrite Hx in Hy. injection Hy as ->. cbn in *. lia. }
  assert (Hunion : filter (fun kv : string * CacheItem => expires_at kv.2 <= now) m
                   = filter (fun kv : string * CacheItem => now > expires_at kv.2) m
                     ∪ filter (fun kv : string * CacheItem => expires_at kv.2 = now) m).
  { apply map_eq. intros k. apply option_eq. intros item.
    rewrite (lookup_union_Some _ _ _ _ Hdisj), !map_lookup_filter_Some. cbn.
    split.
    - intros [Hk Hle]. destruct (decide (expires_at item = now)); [right|left];
        split; auto; lia.
    - intros [[Hk Hp] | [Hk Hp]]; split; auto; lia. }
  rewrite Hunion, (map_size_disj_union _ _ Hdisj). lia.
Qed.

(** C5.  Lazy eviction and TTL.  A lookup at a time [now] past the expiry
    time of the entry under its key answers nothing and deletes that entry,
    leaving every other entry in place.  An entry put at [cached_at] is
    answered (as a new object with the table that was put) at every [now] up
    to [cached_at] plus the TTL, and is absent after.  The count
    [expired_entries] of the statistics is the number of stored entries whose
    expiry time is at or before [now]: those past their expiry time and, on
    top of them, those whose expiry time is [now], which a lookup at that
    instant still answers.  Nothing is swept to obtain it. *)
Theorem cache_ttl_lazy_eviction (self : Cache) (heap : Heap) (q : string)
    (kwargs : gmap string JsonValue) (now : Z) :
  (forall item : CacheItem,
      _query_cache self !! key_of q kwargs = Some item ->
      now > expires_at item ->
      exists self' : Cache,
        get self heap q kwargs now = (None, self', heap)
        /\ _query_cache self' !! key_of q kwargs = None
        /\ forall k, k ≠ key_of q kwargs ->
             _query_cache self' !! k = _query_cache self !! k)
  /\ (forall (r : ref) (table : DataFrame) (cached_at : Z) self1 heap1,
        heap !! r = Some table ->
        put self heap q r kwargs cached_at = (self1, heap1) ->
        (now <= cached_at + timedelta_seconds (_ttl_seconds self) ->
         exists (l : ref) (heap2 : Heap),
           get self1 heap1 q kwargs now = (Some l, self1, heap2)
           /\ heap2 !! l = Some table)
        /\ (now > cached_at + timedelta_seconds (_ttl_seconds self) ->
            exists self2 : Cache,
              get self1 heap1 q kwargs now = (None, self2, heap1)
              /\ _query_cache self2 !! key_of q kwargs = None))
  /\ expired_entries (get_cache_stats self now)
     = Z.of_nat (size (filter (fun kv : string * CacheItem => expires_at kv.2 <= now)
                         (_query_cache self)))
  /\ total_entries (get_cache_stats self now) = size (_query_cache self)
  /\ expired_entries (get_cache_stats self now)
     = Z.of_nat (size (filter (fun kv : string * CacheItem => now > expires_at kv.2)
                         (_query_cache self)))
       + Z.of_nat (size (filter (fun kv : string * CacheItem => expires_at kv.2 = now)
                           (_query_cache self))).
Proof.
  split; [|split; [|split; [|split; [|apply stats_expired_split]]]].
  - intros item Hit Hexp. eexists. split; [apply (get_expired _ _ _ _ _ _ Hit Hexp)|].
    cbn. split; [apply lookup_delete_eq|].
    intros k Hk. now apply lookup_delete_ne.
  - intros r table cached_at self1 heap1 Hr Hput.
    rewrite (put_spec _ _ _ _ _ _ _ Hr) in Hput. injection Hput as <- <-.
    split; intros Hnow.
    + eexists _, _. split.
      * eapply get_valid; cbn; [apply lookup_insert_eq|apply lookup_insert_eq|exact Hnow].
      * apply lookup_insert_eq.
    + eexists. split.
      * eapply get_expired; cbn; [apply lookup_insert_eq|exact Hnow].
      * cbn. apply lookup_delete_eq.
  - apply stats_expired.
  - reflexivity.
Qed.

(** C6.  Round trip with normalization.  Put the table held by [r] under the
    query [q]; let the caller then overwrite [r] with any other table.  A
    lookup with a query [q'] that differs from [q] only in letter casing and
    in runs of whitespace (whitespace at either end and the sharp s written
    as two letters s included), with the same key parameters and not past
    the expiry time, answers a new object [l] that holds the table that was
    put.
    Overwriting [l] in turn changes nothing for the next lookup, which again
    answers the table that was put. *)
Theorem cache_round_trip_normalized (self : Cache) (heap : Heap) (q q' : string)
    (kwargs : gmap string JsonValue) (r : ref) (table changed_r changed_l : DataFrame)
    (cached_at now now' : Z) (self1 : Cache) (heap1 : Heap) :
  heap !! r = Some table ->
  same_up_to_case_and_spacing q q' ->
  now <= cached_at + timedelta_seconds (_ttl_seconds self) ->
  now' <= cached_at + timedelta_seconds (_ttl_seconds self) ->
  put self heap q r kwargs cached_at = (self1, heap1) ->
  exists (l : ref) (heap2 : Heap),
    get self1 (<[r := changed_r]> heap1) q' kwargs now = (Some l, self1, heap2)
    /\ heap2 !! l = Some table
    /\ l ≠ r
    /\ (<[r := changed_r]> heap1) !! l = None
    /\ exists (l' : ref) (heap3 : Heap),
         get self1 (<[l := changed_l]> heap2) q' kwargs now' = (Some l', self1, heap3)
         /\ heap3 !! l' = Some table.
Proof.
  intros Hr Hsame Hnow Hnow' Hput.
  rewrite (put_spec _ _ _ _ _ _ _ Hr) in Hput. injection Hput as <- <-.
  pose proof (fresh_not_allocated _ _ _ Hr) as Hstored.
  set (stored := fresh (dom heap)) in *.
  set (heap_r := <[r := changed_r]> (<[stored := table]> heap)).
  assert (Hobj : heap_r !! stored = Some table).
  { unfold heap_r. rewrite lookup_insert_ne by congruence. apply lookup_insert_eq. }
  assert (Hr' : heap_r !! r = Some changed_r) by apply lookup_insert_eq.
  pose proof (fresh_not_allocated _ _ _ Hobj) as Hl.
  pose proof (fresh_not_allocated _ _ _ Hr') as Hlr.
  set (l := fresh (dom heap_r)) in *.
  exists l, (<[l := table]> heap_r).
  split; [|split; [|split; [|split]]].
  - eapply get_valid; cbn.
    + rewrite <- (cache_key_same _ _ kwargs Hsame). apply lookup_insert_eq.
    + exact Hobj.
    + exact Hnow.
  - apply lookup_insert_eq.
  - exact Hlr.
  - apply not_elem_of_dom. apply is_fresh.
  - eexists _, _. split.
    + eapply get_valid; cbn.
      * rewrite <- (cache_key_same _ _ kwargs Hsame). apply lookup_insert_eq.
      * cbn. do 2 (rewrite lookup_insert_ne by congruence). exact Hobj.
      * exact Hnow'.
    + apply lookup_insert_eq.
Qed.

End Service.
End CacheFacts.

Module CacheWitness.
Import PyStr CacheService CacheFacts Samples.

Local Abbreviation get := (get_cached_result sample_json_dumps sample_digest).
Local Abbreviation put := (cache_result sample_json_dumps sample_digest).

Lemma sample_queries_same :
  same_up_to_case_and_spacing "  select  1 " "SELECT
1".
Proof.
  do 2 (apply same_longer_run_l; [reflexivity|]).
  do 6 (apply same_char; [reflexivity | reflexivity | reflexivity |]).
  apply same_space; [reflexivity | reflexivity |].
  apply same_longer_run_l; [reflexivity|].
  apply same_char; [reflexivity | reflexivity | reflexivity |].
  apply same_trailing_l; [reflexivity|].
  apply same_end.
Defined.

Lemma cache_round_trip_normalized_witness :
  exists (self1 : Cache) (heap1 : Heap),
    put (init 3600) one_table_heap "  select  1 " 1%positive ∅ 1000 = (self1, heap1)
    /\ exists (l : ref) (heap2 : Heap),
         get self1 (<[1%positive := other_table]> heap1) "SELECT
1" ∅ 2000
         = (Some l, self1, heap2)
         /\ heap2 !! l = Some orders_table
         /\ l ≠ 1%positive
         /\ (<[1%positive := other_table]> heap1) !! l = None
         /\ exists (l' : ref) (heap3 : Heap),
              get self1 (<[l := other_table]> heap2) "SELECT
1" ∅ 3600001000
              = (Some l', self1, heap3)
              /\ heap3 !! l' = Some orders_table.
Proof.
  eexists _, _. split; [reflexivity|].
  apply (cache_round_trip_normalized sample_json_dumps sample_digest
           (init 3600) one_table_heap "  select  1 " "SELECT
1" ∅ 1%positive orders_table other_table other_table 1000 2000 3600001000).
  - reflexivity.
  - exact sample_queries_same.
  - vm_compute. discriminate.
  - vm_compute. discriminate.
  - reflexivity.
Defined.

Lemma cache_ttl_lazy_eviction_witness :
  exists (self1 : Cache) (heap1 : Heap),
    put (init 3600) one_table_heap "SELECT 1" 1%positive ∅ 1000 = (self1, heap1)
    /\ (exists (l : ref) (heap2 : Heap),
          get self1 heap1 "SELECT 1" ∅ 3600001000 = (Some l, self1, heap2)
          /\ heap2 !! l = Some orders_table)
    /\ (exists self2 : Cache,
          get self1 heap1 "SELECT 1" ∅ 3600001001 = (None, self2, heap1)
          /\ _query_cache self2 !! "SELECT 1" = None)
    /\ expired_entries (get_cache_stats self1 3600001000) = 1
    /\ expired_entries (get_cache_stats self1 3600000999) = 0.
Proof.
  eexists _, _. split; [reflexivity|].
  split; [|split; [|split]].
  - destruct (cache_ttl_lazy_eviction sample_json_dumps sample_digest
                (init 3600) one_table_heap "SELECT 1" ∅ 3600001000) as (_ & H & _).
    apply (H 1%positive orders_table 1000 _ _ eq_refl eq_refl).
    vm_compute. discriminate.
  - destruct (cache_ttl_lazy_eviction sample_json_dumps sample_digest
                (init 3600) one_table_heap "SELECT 1" ∅ 3600001001) as (_ & H & _).
    apply (H 1%positive orders_table 1000 _ _ eq_refl eq_refl).
    reflexivity.
  - vm_compute. reflexivity.
  - vm_compute. reflexivity.
Defined.

(** C5, at the instant where the count of the statistics is not the number of
    entries past their expiry time: the entry put at 1000 with a TTL of 3600
    seconds is answered by a lookup at its expiry time, no stored entry is
    past its expiry time, and the statistics count one expired entry. *)
Lemma stats_count_entry_still_served :
  exists (self1 : Cache) (heap1 : Heap),
    put (init 3600) one_table_heap "SELECT 1" 1%positive ∅ 1000 = (self1, heap1)
    /\ (exists (l : ref) (heap2 : Heap),
          get self1 heap1 "SELECT 1" ∅ 3600001000 = (Some l, self1, heap2)
          /\ heap2 !! l = Some orders_table)
    /\ size (filter (fun kv : string * CacheItem => 3600001000 > expires_at kv.2)
               (_query_cache self1)) = 0%nat
    /\ expired_entries (get_cache_stats self1 3600001000) = 1.
Proof.
  eexists _, _. split; [reflexivity|].
  split; [|split].
  - eexists _, _. split; [reflexivity|]. reflexivity.
  - vm_compute. reflexivity.
  - vm_compute. reflexivity.
Qed.

End CacheWitness.

(** ** Facts about the pipeline nodes *)

Module NodesFacts.
Import PyStr PyStrFacts Nodes Samples.

(** *** validate_sql *)

Lemma validate_sql_unfold (state : AgentState) (sql : string) :
  truthy (error state) = false ->
  sql_query state = Some sql ->
  validate_sql state
  = Ok match first_forbidden sql with
       | Some keyword =>
           set_error state (Some ("Query contains forbidden operation: " +:+ keyword))
       | None =>
           if contains "SELECT" sql then state
           else set_error state (Some "Query must be a SELECT statement")
       end.
Proof.
  intros Herr Hsql. unfold validate_sql. rewrite Herr, Hsql.
  destruct (first_forbidden sql); [reflexivity|].
  destruct (contains "SELECT" sql); reflexivity.
Qed.

(** A keyword that the loop finds is one of the forbidden ones and matches
    the text as a whole word, in upper case. *)
Lemma first_forbidden_some (sql keyword : string) :
  first_forbidden sql = Some keyword ->
  In keyword forbidden_keywords /\ re_search_word false keyword sql = true.
Proof. intros H. apply find_some in H. exact H. Qed.

Lemma forbidden_keywords_are_words (keyword : string) :
  In keyword forbidden_keywords ->
  keyword <> EmptyString /\ all_word keyword = true.
Proof.
  intros H. cbn in H.
  repeat (destruct H as [<- | H]; [split; [discriminate|reflexivity]|]).
  contradiction.
Qed.

(** An upper-case forbidden keyword standing as a whole word is rejected.
    The keyword stands in the text between [pre] and [post] with no letter,
    digit or underscore right before it and none right after it.  The
    keyword named in the error is a forbidden one that stands in the text as
    a whole word (the first such in the order of the list). *)
Lemma validate_sql_rejects_upper_case_word (state : AgentState)
    (pre keyword post : string) :
  truthy (error state) = false ->
  sql_query state = Some (pre +:+ keyword +:+ post) ->
  In keyword forbidden_keywords ->
  is_word_opt (last_from None pre) = false ->
  is_word_opt (head post) = false ->
  exists found pre' post' : string,
    In found forbidden_keywords
    /\ pre +:+ keyword +:+ post = pre' +:+ found +:+ post'
    /\ is_word_opt (last_from None pre') = false
    /\ is_word_opt (head post') = false
    /\ validate_sql state
       = Ok (set_error state (Some ("Query contains forbidden operation: " +:+ found))).
Proof.
  intros Herr Hsql Hin Hbefore Hafter.
  destruct (forbidden_keywords_are_words _ Hin) as [Hne Hword].
  pose proof (whole_word_is_found keyword pre post Hne Hword Hbefore Hafter) as Hmatch.
  rewrite (validate_sql_unfold _ _ Herr Hsql).
  destruct (first_forbidden (pre +:+ keyword +:+ post)) as [found|] eqn:Hfound.
  - apply first_forbidden_some in Hfound as [Hfin Hsearch].
    destruct (forbidden_keywords_are_words _ Hfin) as [Hfne Hfword].
    destruct (search_word_from_exact _ _ _ Hsearch) as (pre' & post' & Heq & Hb1 & Hb2).
    unfold boundary in Hb1, Hb2.
    rewrite (head_all_word _ _ Hfne Hfword) in Hb1.
    rewrite (last_all_word _ _ Hfne Hfword) in Hb2.
    exists found, pre', post'.
    split; [exact Hfin|]. split; [exact Heq|].
    split; [now destruct (is_word_opt (last_from None pre'))|].
    split; [now destruct (is_word_opt (head post'))|reflexivity].
  - exfalso. unfold first_forbidden in Hfound.
    pose proof (find_none _ _ Hfound keyword Hin) as Hnone. cbn in Hnone. congruence.
Qed.

Lemma validate_sql_rejects_upper_case_word_witness :
  exists found pre' post' : string,
    In found forbidden_keywords
    /\ "SELECT 1; " +:+ "DELETE" +:+ EmptyString = pre' +:+ found +:+ post'
    /\ is_word_opt (last_from None pre') = false
    /\ is_word_opt (head post') = false
    /\ validate_sql (state_with_sql "Query" "SELECT 1; DELETE")
       = Ok (set_error (state_with_sql "Query" "SELECT 1; DELETE")
               (Some ("Query contains forbidden operation: " +:+ found))).
Proof.
  apply (validate_sql_rejects_upper_case_word
           (state_with_sql "Query" "SELECT 1; DELETE")
           "SELECT 1; " "DELETE" EmptyString).
  - reflexivity.
  - reflexivity.
  - right. left. reflexivity.
  - reflexivity.
  - reflexivity.
Defined.

(** A forbidden keyword that occurs in the text only as part of a longer
    identifier (each occurrence has a letter, digit or underscore right
    before or right after it) is not what the validation rejects. *)
Lemma keyword_inside_identifier_not_matched (state : AgentState) (sql keyword : string) :
  In keyword forbidden_keywords ->
  (forall pre post : string,
      sql = pre +:+ keyword +:+ post ->
      is_word_opt (last_from None pre) = true \/ is_word_opt (head post) = true) ->
  truthy (error state) = false ->
  sql_query state = Some sql ->
  first_forbidden sql <> Some keyword
  /\ validate_sql state
     <> Ok (set_error state (Some ("Query contains forbidden operation: " +:+ keyword))).
Proof.
  intros Hin Hinside Herr Hsql.
  destruct (forbidden_keywords_are_words _ Hin) as [Hne Hword].
  pose proof (inside_identifier_not_matched _ _ Hne Hword Hinside) as Hno.
  assert (Hfirst : first_forbidden sql <> Some keyword).
  { intros Hfound. apply first_forbidden_some in Hfound as [_ Hfound]. congruence. }
  split; [exact Hfirst|].
  rewrite (validate_sql_unfold _ _ Herr Hsql).
  intros H.
  apply (f_equal (fun r => match r with Ok st => error st | Raise _ => None end)) in H.
  destruct (first_forbidden sql) as [found|]; [|destruct (contains "SELECT" sql)];
    cbn in H.
  - injection H as H. change (found = keyword) in H. subst found. now apply Hfirst.
  - rewrite H in Herr. discriminate.
  - discriminate.
Qed.

(** C1, at the input where the code departs from it.  The text holds DROP as a
    whole word in lower case (the search that ignores case finds it) next to
    an upper-case SELECT, and [validate_sql] returns the state as it came,
    with no error. *)
Theorem validate_sql_accepts_lower_case_drop :
  let sql := "SELECT * FROM orders; drop table orders" in
  re_search_word true "DROP" sql = true
  /\ first_forbidden sql = None
  /\ validate_sql (state_with_sql "Query" sql) = Ok (state_with_sql "Query" sql)
  /\ error (state_with_sql "Query" sql) = None.
Proof. repeat split; reflexivity. Qed.

(** C10.  The check for SELECT compares case-sensitively: a text with no
    upper-case [SELECT] in it is always rejected.  The error is 'Query must be
    a SELECT statement' whenever the check is reached, that is, whenever the
    loop over the forbidden keywords found none; otherwise it is the error of
    that loop. *)
Theorem validate_sql_select_check_case_sensitive (state : AgentState) (sql : string) :
  truthy (error state) = false ->
  sql_query state = Some sql ->
  contains "SELECT" sql = false ->
  exists msg : string,
    validate_sql state = Ok (set_error state (Some msg))
    /\ (first_forbidden sql = None -> msg = "Query must be a SELECT statement")
    /\ (forall keyword, first_forbidden sql = Some keyword ->
          msg = "Query contains forbidden operation: " +:+ keyword).
Proof.
  intros Herr Hsql Hsel. rewrite (validate_sql_unfold _ _ Herr Hsql), Hsel.
  destruct (first_forbidden sql) as [found|].
  - eexists. split; [reflexivity|]. split; [discriminate|].
    intros keyword [= ->]. reflexivity.
  - eexists. split; [reflexivity|]. split; [reflexivity|discriminate].
Qed.

Lemma validate_sql_select_check_case_sensitive_witness :
  contains "SELECT" (upper "select * from orders") = true
  /\ validate_sql (state_with_sql "Query" "select * from orders")
     = Ok (set_error (state_with_sql "Query" "select * from orders")
             (Some "Query must be a SELECT statement")).
Proof.
  split; [reflexivity|].
  destruct (validate_sql_select_check_case_sensitive
              (state_with_sql "Query" "select * from orders") "select * from orders"
              eq_refl eq_refl eq_refl) as (msg & Hv & Hnone & _).
  rewrite Hv, (Hnone eq_refl). reflexivity.
Defined.

(** C10, at an input of the claim where the error is another one: the text
    holds select in lower case only and no upper-case SELECT, and the error
    is the one of the loop over the forbidden keywords, which runs first and
    finds DELETE inside the quoted value. *)
Lemma validate_sql_lower_case_select_reports_forbidden_word :
  let sql := "select id from t where action = 'DELETE'" in
  contains "select" sql = true
  /\ contains "SELECT" sql = false
  /\ validate_sql (state_with_sql "Query" sql)
     = Ok (set_error (state_with_sql "Query" sql)
             (Some "Query contains forbidden operation: DELETE")).
Proof. cbv zeta. split; [reflexivity|]. split; reflexivity. Qed.

(** *** execute_query *)

Lemma retry_below_bound (n : Z) : (n >=? max_retries) = false -> n < max_retries.
Proof. rewrite Z.geb_leb. apply Z.leb_gt. Qed.

(** The recursion returns: the bound [depth_bound] is never reached. *)
Lemma execute_query_fuel_total (fuel : nat) :
  forall (svc : Services) (state : AgentState) (log : Log),
    (depth_bound state <= fuel)%nat ->
    exists r, execute_query_fuel fuel svc state log = Some r.
Proof.
  induction fuel as [|fuel IH]; intros svc state log Hfuel.
  - unfold depth_bound in Hfuel. destruct (retry_count state); lia.
  - cbn [execute_query_fuel].
    destruct (truthy (error state)); [eauto|].
    destruct (retry_count state) as [n|] eqn:Hn; [|eauto].
    destruct (n >=? max_retries) eqn:Hge; [eauto|].
    destruct (call_execute svc (sql_query state) log) as [[df|msg] log1]; [eauto|].
    destruct (n <? max_retries); [|eauto].
    destruct (_recover_from_error svc _ msg log1) as [[st'|m] log2]; [|eauto].
    apply IH. apply retry_below_bound in Hge.
    unfold depth_bound in *. rewrite Hn in Hfuel. cbn [retry_count set_retry_count].
    unfold max_retries in *. lia.
Qed.

Theorem execute_query_returns (svc : Services) (state : AgentState) (log : Log) :
  exists r, execute_query svc state log = Some r.
Proof. apply execute_query_fuel_total. lia. Qed.

(** A larger bound gives the same result. *)
Lemma execute_query_fuel_more (fuel : nat) :
  forall (svc : Services) (state : AgentState) (log : Log) r (extra : nat),
    execute_query_fuel fuel svc state log = Some r ->
    execute_query_fuel (fuel + extra) svc state log = Some r.
Proof.
  induction fuel as [|fuel IH]; intros svc state log r extra H; [discriminate|].
  cbn [execute_query_fuel Nat.add] in *.
  destruct (truthy (error state)); [exact H|].
  destruct (retry_count state) as [n|]; [|exact H].
  destruct (n >=? max_retries); [exact H|].
  destruct (call_execute svc (sql_query state) log) as [[df|msg] log1]; [exact H|].
  destruct (n <? max_retries); [|exact H].
  destruct (_recover_from_error svc _ msg log1) as [[st'|m] log2]; [|exact H].
  now apply IH.
Qed.

Lemma execute_query_skips_on_error (svc : Services) (state : AgentState) (log : Log) :
  truthy (error state) = true -> execute_query svc state log = Some (Ok state, log).
Proof.
  intros H. unfold execute_query, depth_bound.
  destruct (retry_count state); cbn [execute_query_fuel]; now rewrite H.
Qed.

(** C4.  Short-circuit on error.  In a state whose error field is set (holds
    a non-empty message, which is what the stages test), [validate_sql],
    [execute_query], [analyze_results] and [create_visualization] each return
    the state itself, so [sql_query], [query_result], [insights] and
    [visualization_spec] are unchanged, and no collaborator is called. *)
Theorem error_short_circuits_stages (svc : Services) (state : AgentState) (log : Log) :
  truthy (error state) = true ->
  validate_sql state = Ok state
  /\ execute_query svc state log = Some (Ok state, log)
  /\ analyze_results svc state log = (Ok state, log)
  /\ create_visualization svc state log = (Ok state, log).
Proof.
  intros H. split; [|split; [|split]].
  - unfold validate_sql. now rewrite H.
  - now apply execute_query_skips_on_error.
  - unfold analyze_results. now rewrite H.
  - unfold create_visualization. now rewrite H.
Qed.

Lemma error_short_circuits_stages_witness :
  let state :=
    set_error
      (set_query_result (state_with_sql "Count orders" "SELECT COUNT(*) FROM orders")
         (Some orders_table))
      (Some "Query execution failed: timeout") in
  let svc := services "boom" (Ok "insight") (Ok None) in
  validate_sql state = Ok state
  /\ execute_query svc state [] = Some (Ok state, [])
  /\ analyze_results svc state [] = (Ok state, [])
  /\ create_visualization svc state [] = (Ok state, []).
Proof.
  intros state svc. apply (error_short_circuits_stages svc state []). reflexivity.
Defined.

(** *** _recover_from_error *)

Lemma recover_without_delegation (svc : Services) (state : AgentState)
    (error_msg failed_sql : string) (log : Log) :
  sql_query state = Some failed_sql ->
  delegates error_msg = false ->
  _recover_from_error svc state error_msg log
  = (Ok (apply_correction (with_logged_error state error_msg)
           (pattern_fixed error_msg failed_sql)), log).
Proof.
  intros Hsql Hno. apply orb_false_iff in Hno as [Ht Hc].
  unfold _recover_from_error. now rewrite Hsql, Ht, Hc.
Qed.

Lemma recover_without_services (svc : Services) (state : AgentState)
    (error_msg failed_sql : string) (log : Log) :
  sql_query state = Some failed_sql ->
  llm_service svc = None \/ schema_service svc = None ->
  _recover_from_error svc state error_msg log
  = (Ok (apply_correction (with_logged_error state error_msg)
           (pattern_fixed error_msg failed_sql)), log).
Proof.
  intros Hsql Hnone. unfold _recover_from_error. rewrite Hsql.
  destruct (timestamp_rule error_msg), (column_rule error_msg),
    (llm_service svc), (schema_service svc);
    try reflexivity; destruct Hnone; discriminate.
Qed.

Lemma recover_with_delegation (svc : Services) (state : AgentState)
    (error_msg failed_sql : string) (log : Log)
    (sch : Log -> bool -> result string) (llm : Log -> string -> result string) :
  sql_query state = Some failed_sql ->
  delegates error_msg = true ->
  llm_service svc = Some llm ->
  schema_service svc = Some sch ->
  _recover_from_error svc state error_msg log
  = match llm_correction sch llm (query state) failed_sql error_msg log with
    | (Ok corrected_sql, log') =>
        (Ok (apply_correction (with_logged_error state error_msg) corrected_sql), log')
    | (Raise _, log') => (Ok (with_logged_error state error_msg), log')
    end.
Proof.
  intros Hsql Hyes Hllm Hsch. unfold _recover_from_error, delegates in *.
  rewrite Hsql, Hllm, Hsch.
  destruct (timestamp_rule error_msg); [reflexivity|].
  cbn in Hyes. now rewrite Hyes.
Qed.

Lemma llm_correction_ok (sch : Log -> bool -> result string)
    (llm : Log -> string -> result string)
    (user_query failed_sql error_msg ctx text : string) (log : Log) :
  sch log false = Ok ctx ->
  llm (log ++ [CallSchemaContext false])
      (get_error_recovery_prompt user_query failed_sql error_msg ctx) = Ok text ->
  llm_correction sch llm user_query failed_sql error_msg log
  = (Ok (clean_sql_output text),
     log ++ [CallSchemaContext false;
             CallGenerateText
               (get_error_recovery_prompt user_query failed_sql error_msg ctx)]).
Proof.
  intros Hsch Hllm.
  unfold llm_correction, bind, call_schema_context, call_generate_text, ret.
  rewrite Hsch, Hllm. now rewrite <- app_assoc.
Qed.

(** The recovery prompt carries its four arguments. *)
Lemma recovery_prompt_carries (user_query failed_sql error_msg ctx : string) :
  let prompt := get_error_recovery_prompt user_query failed_sql error_msg ctx in
  contains user_query prompt = true
  /\ contains failed_sql prompt = true
  /\ contains error_msg prompt = true
  /\ contains ctx prompt = true.
Proof.
  cbv zeta. unfold get_error_recovery_prompt. repeat split.
  - apply contains_mid.
  - do 3 apply contains_app_r. apply contains_prefix.
  - do 5 apply contains_app_r. apply contains_prefix.
  - do 7 apply contains_app_r. apply contains_prefix.
Qed.

(** *** Code fences *)

(** A generated text wrapped in a [```sql] fence is unwrapped. *)
Lemma clean_sql_output_sql_fence (body : string) :
  clean_sql_output ("```sql" +:+ body +:+ "```") = strip body.
Proof.
  assert (Htight : strip ("```sql" +:+ body +:+ "```") = "```sql" +:+ body +:+ "```").
  { replace ("```sql" +:+ body +:+ "```")
      with (String "`" (("``sql" +:+ body +:+ "``") +:+ String "`" EmptyString))
      by (rewrite !append_assoc; reflexivity).
    apply strip_tight; reflexivity. }
  unfold clean_sql_output. rewrite Htight, startswith_app.
  change (drop 6 ("```sql" +:+ body +:+ "```")) with (body +:+ "```").
  now rewrite endswith_fence, drop_last_fence.
Qed.

Lemma startswith_sql_fence (body : string) :
  startswith "sql" body = false -> startswith "sql" (body +:+ "```") = false.
Proof.
  destruct body as [|a [|b [|c r]]]; intros H; try reflexivity;
    cbv -[Ascii.eqb] in *;
    repeat match goal with
           | |- context [Ascii.eqb ?x ?y] => destruct (Ascii.eqb x y) eqn:?
           end;
    try reflexivity; try discriminate.
Qed.

(** A generated text wrapped in a bare fence is unwrapped. *)
Lemma clean_sql_output_bare_fence (body : string) :
  startswith "sql" body = false ->
  clean_sql_output ("```" +:+ body +:+ "```") = strip body.
Proof.
  intros Hbody.
  assert (Htight : strip ("```" +:+ body +:+ "```") = "```" +:+ body +:+ "```").
  { replace ("```" +:+ body +:+ "```")
      with (String "`" (("``" +:+ body +:+ "``") +:+ String "`" EmptyString))
      by (rewrite !append_assoc; reflexivity).
    apply strip_tight; reflexivity. }
  unfold clean_sql_output. rewrite Htight.
  change (startswith "```sql" ("```" +:+ body +:+ "```"))
    with (startswith "sql" (body +:+ "```")).
  rewrite (startswith_sql_fence _ Hbody), startswith_app.
  change (drop 3 ("```" +:+ body +:+ "```")) with (body +:+ "```").
  now rewrite endswith_fence, drop_last_fence.
Qed.

(** C8, a counterexample.  The message of a syntax error matches neither the
    DATEDIFF rule nor a trigger of the delegated call; with both services at
    hand the recovery calls no collaborator (the log stays empty), keeps the
    failed SQL and clears the error. *)
Lemma recovery_makes_no_call_on_syntax_error :
  let error_msg := "Syntax error: Unexpected identifier SELEC at [1:1]" in
  let sql := "SELEC COUNT(*) FROM orders" in
  let state :=
    set_error (state_with_sql "Count orders" sql)
      (Some ("Query execution failed: " +:+ error_msg)) in
  let svc := services error_msg (Ok "SELECT COUNT(*) FROM orders") (Ok None) in
  datediff_rule error_msg sql = false
  /\ _recover_from_error svc state error_msg []
     = (Ok (set_error (set_previous_errors state (Some [error_msg])) None), []).
Proof. split; reflexivity. Qed.

(** C8, amended.  With both services at hand: when the message matches a
    trigger of Fix 2 or Fix 3 and the two calls succeed, the recovery asks the
    schema service for the context and then makes one text-generation call,
    whose prompt carries the request, the failed SQL, the error text and the
    schema context; the answer, cleaned by [clean_sql_output], becomes the SQL
    and the error is cleared.  When the message matches no trigger, no call
    is made and the SQL is the failed one after the DATEDIFF rule. *)
Theorem recovery_delegates_on_matching_errors (svc : Services) (state : AgentState)
    (error_msg failed_sql : string) (log : Log)
    (sch : Log -> bool -> result string) (llm : Log -> string -> result string) :
  sql_query state = Some failed_sql ->
  llm_service svc = Some llm ->
  schema_service svc = Some sch ->
  (delegates error_msg = true ->
   forall ctx text : string,
     sch log false = Ok ctx ->
     let prompt := get_error_recovery_prompt (query state) failed_sql error_msg ctx in
     llm (log ++ [CallSchemaContext false]) prompt = Ok text ->
     exists st' : AgentState,
       _recover_from_error svc state error_msg log
       = (Ok st', log ++ [CallSchemaContext false; CallGenerateText prompt])
       /\ sql_query st' = Some (clean_sql_output text)
       /\ error st' = None
       /\ contains (query state) prompt = true
       /\ contains failed_sql prompt = true
       /\ contains error_msg prompt = true
       /\ contains ctx prompt = true)
  /\ (delegates error_msg = false ->
      exists st' : AgentState,
        _recover_from_error svc state error_msg log = (Ok st', log)
        /\ sql_query st' = Some (pattern_fixed error_msg failed_sql)
        /\ error st' = None).
Proof.
  intros Hsql Hllm Hsch. split.
  - intros Hyes ctx text Hctx prompt Htext.
    rewrite (recover_with_delegation _ _ _ _ _ _ _ Hsql Hyes Hllm Hsch).
    rewrite (llm_correction_ok _ _ _ _ _ _ _ _ Hctx Htext).
    eexists. split; [reflexivity|]. split; [reflexivity|]. split; [reflexivity|].
    apply recovery_prompt_carries.
  - intros Hno. rewrite (recover_without_delegation _ _ _ _ _ Hsql Hno).
    eexists. repeat split.
Qed.

Lemma recovery_delegates_on_matching_errors_witness :
  let error_msg := "Unrecognized name: order_date; column not found at [1:8]" in
  let sql := "SELECT order_date FROM orders" in
  let state :=
    set_error (state_with_sql "Orders by day" sql)
      (Some ("Query execution failed: " +:+ error_msg)) in
  let answer := "```sql
SELECT created_at FROM orders
```" in
  let svc := services error_msg (Ok answer) (Ok None) in
  exists (st' : AgentState) (log' : Log),
    _recover_from_error svc state error_msg [] = (Ok st', log')
    /\ List.length log' = 2%nat
    /\ sql_query st' = Some "SELECT created_at FROM orders"
    /\ error st' = None.
Proof.
  intros error_msg sql state answer svc.
  destruct (recovery_delegates_on_matching_errors svc state error_msg sql []
              (fun _ _ => Ok "SCHEMA: orders(order_id, status)") (fun _ _ => Ok answer)
              eq_refl eq_refl eq_refl) as [Hyes _].
  destruct (Hyes eq_refl "SCHEMA: orders(order_id, status)" answer eq_refl eq_refl)
    as (st' & Hrun & Hsql & Herr & _).
  eexists st', _. split; [exact Hrun|]. split; [reflexivity|].
  split; [rewrite Hsql; reflexivity|exact Herr].
Defined.

(** When the delegated correction raises, the recovery returns the state with
    only the error logged in [previous_errors]. *)
Lemma recover_gives_up (svc : Services) (state : AgentState)
    (error_msg failed_sql e : string) (log log' : Log)
    (sch : Log -> bool -> result string) (llm : Log -> string -> result string) :
  sql_query state = Some failed_sql ->
  delegates error_msg = true ->
  llm_service svc = Some llm ->
  schema_service svc = Some sch ->
  llm_correction sch llm (query state) failed_sql error_msg log = (Raise e, log') ->
  _recover_from_error svc state error_msg log
  = (Ok (with_logged_error state error_msg), log').
Proof.
  intros Hsql Hyes Hllm Hsch Hraise.
  rewrite (recover_with_delegation _ _ _ _ _ _ _ Hsql Hyes Hllm Hsch).
  now rewrite Hraise.
Qed.

(** C7.  An execution fails with [error_msg] while a retry is left, the
    message takes the recovery to the delegated call, and that call raises
    (the schema service or the text generation).  Then the recovery returns
    the state with the recorded error 'Query execution failed: ...' and the
    failed SQL both in place, and [execute_query] ends with that error and
    that SQL, having spent one retry and made no further call. *)
Theorem llm_failure_keeps_execution_error (svc : Services) (state : AgentState)
    (log log' : Log) (n : Z) (sql error_msg e : string)
    (sch : Log -> bool -> result string) (llm : Log -> string -> result string) :
  truthy (error state) = false ->
  retry_count state = Some n ->
  n < max_retries ->
  sql_query state = Some sql ->
  bigquery_execute_query svc log (Some sql) (MAX_QUERY_ROWS svc) = Raise error_msg ->
  delegates error_msg = true ->
  llm_service svc = Some llm ->
  schema_service svc = Some sch ->
  llm_correction sch llm (query state) sql error_msg
    (log ++ [CallExecute (Some sql) (MAX_QUERY_ROWS svc)]) = (Raise e, log') ->
  let failed := set_error state (Some ("Query execution failed: " +:+ error_msg)) in
  (exists recovered : AgentState,
     _recover_from_error svc failed error_msg
       (log ++ [CallExecute (Some sql) (MAX_QUERY_ROWS svc)]) = (Ok recovered, log')
     /\ error recovered = error failed
     /\ sql_query recovered = Some sql)
  /\ exists final : AgentState,
       execute_query svc state log = Some (Ok final, log')
       /\ error final = Some ("Query execution failed: " +:+ error_msg)
       /\ sql_query final = Some sql
       /\ query_result final = query_result state
       /\ retry_count final = Some (n + 1).
Proof.
  intros Herr Hn Hlt Hsql Hexec Hyes Hllm Hsch Hraise failed.
  assert (Hrec : _recover_from_error svc failed error_msg
                   (log ++ [CallExecute (Some sql) (MAX_QUERY_ROWS svc)])
                 = (Ok (with_logged_error failed error_msg), log')).
  { apply (recover_gives_up svc failed error_msg sql e _ _ sch llm); assumption. }
  split.
  - eexists. split; [exact Hrec|]. split; [reflexivity|exact Hsql].
  - unfold execute_query, depth_bound. rewrite Hn.
    destruct (Z.to_nat (max_retries - n)) as [|k] eqn:Hk; [lia|].
    cbn [execute_query_fuel]. rewrite Herr, Hn.
    replace (n >=? max_retries) with false
      by (symmetry; rewrite Z.geb_leb; apply Z.leb_gt; exact Hlt).
    replace (n <? max_retries) with true by (symmetry; apply Z.ltb_lt; exact Hlt).
    unfold call_execute. rewrite Hsql, Hexec. fold failed. rewrite Hrec.
    eexists. split; [reflexivity|]. cbn. repeat split; assumption.
Qed.

Lemma llm_failure_keeps_execution_error_witness :
  let error_msg := "Unrecognized name: order_date; column not found at [1:8]" in
  let sql := "SELECT order_date FROM orders" in
  let state := state_with_sql "Orders by day" sql in
  let svc := services error_msg (Raise "429 quota exceeded") (Ok None) in
  exists (final : AgentState) (log' : Log),
    execute_query svc state [] = Some (Ok final, log')
    /\ error final = Some ("Query execution failed: " +:+ error_msg)
    /\ sql_query final = Some sql
    /\ retry_count final = Some 1.
Proof.
  intros error_msg sql state svc.
  destruct (llm_failure_keeps_execution_error svc state [] _ 0 sql error_msg
              "429 quota exceeded"
              (fun _ _ => Ok "SCHEMA: orders(order_id, status)")
              (fun _ _ => Raise "429 quota exceeded")
              eq_refl eq_refl eq_refl eq_refl eq_refl eq_refl eq_refl eq_refl eq_refl)
    as (_ & final & Hrun & Herr & Hsql & _ & Hretry).
  exists final. eexists. repeat split; eassumption.
Defined.

(** C2, at the input where the code departs from it (the input of
    [test_execute_query_propagates_error_correctly]).  Every execution raises
    'Table not found' and no text generation is at hand.  Two executions and
    two recoveries take place; the second recovery clears the error and the
    third entry returns at once on [retry_count >= max_retries].  The final
    state has no query result and no error. *)
Theorem execute_query_exhausted_retries_ends_without_error :
  let svc := failing_services "Table not found" in
  let state := state_with_sql "Query" "SELECT * FROM invalid_table" in
  exists final : AgentState,
    execute_query svc state []
    = Some (Ok final,
            [CallExecute (Some "SELECT * FROM invalid_table") 10000;
             CallExecute (Some "SELECT * FROM invalid_table") 10000])
    /\ error final = None
    /\ query_result final = None
    /\ retry_count final = Some 2
    /\ previous_errors final = Some ["Table not found"; "Table not found"].
Proof. cbv zeta. eexists. split; [reflexivity|]. repeat split. Qed.

(** *** The retry bound *)

Lemma executions_app (log more : Log) :
  executions (log ++ more) = (executions log + executions more)%nat.
Proof. unfold executions. now rewrite List.filter_app, List.length_app. Qed.

Lemma llm_correction_no_execution (sch : Log -> bool -> result string)
    (llm : Log -> string -> result string) (user_query failed_sql error_msg : string)
    (log : Log) :
  executions (snd (llm_correction sch llm user_query failed_sql error_msg log))
  = executions log.
Proof.
  unfold llm_correction, bind, call_schema_context, call_generate_text, ret.
  destruct (sch log false) as [ctx|e]; cbn [snd].
  - destruct (llm _ _); cbn [snd]; rewrite !executions_app; cbn; lia.
  - rewrite executions_app. cbn. lia.
Qed.

(** What one recovery does to a state that holds a statement: it returns, logs
    the error, executes nothing, leaves the result and the retry counter, and
    either clears the error or leaves it. *)
Lemma recover_shape (svc : Services) (state : AgentState) (error_msg sql : string)
    (log : Log) :
  sql_query state = Some sql ->
  exists (st' : AgentState) (log' : Log) (sql' : string),
    _recover_from_error svc state error_msg log = (Ok st', log')
    /\ sql_query st' = Some sql'
    /\ query_result st' = query_result state
    /\ retry_count st' = retry_count state
    /\ logged_errors st' = logged_errors state ++ [error_msg]
    /\ executions log' = executions log
    /\ (error st' = None \/ error st' = error state).
Proof.
  intros Hsql.
  destruct (delegates error_msg) eqn:Hd;
    [destruct (llm_service svc) as [llm|] eqn:Hllm;
     [destruct (schema_service svc) as [sch|] eqn:Hsch|]|].
  - rewrite (recover_with_delegation _ _ _ _ _ _ _ Hsql Hd Hllm Hsch).
    pose proof (llm_correction_no_execution sch llm (query state) sql error_msg log) as Hex.
    destruct (llm_correction sch llm (query state) sql error_msg log) as [[fixed|e] log'];
      cbn [snd] in Hex.
    + eexists _, _, _. split; [reflexivity|]. cbn. repeat split; auto.
    + eexists _, _, _. split; [reflexivity|]. cbn. repeat split; eauto.
  - rewrite (recover_without_services _ _ _ _ _ Hsql) by (right; exact Hsch).
    eexists _, _, _. split; [reflexivity|]. cbn. repeat split; auto.
  - rewrite (recover_without_services _ _ _ _ _ Hsql) by (left; exact Hllm).
    eexists _, _, _. split; [reflexivity|]. cbn. repeat split; auto.
  - rewrite (recover_without_delegation _ _ _ _ _ Hsql Hd).
    eexists _, _, _. split; [reflexivity|]. cbn. repeat split; auto.
Qed.

(** With an execution collaborator that raises on every call, each round of
    [execute_query] is one execution and one recovery, and the rounds stop
    at [max_retries]. *)
Lemma execute_always_failing_rounds (fuel : nat) :
  forall (svc : Services) (state : AgentState) (log : Log) (n : Z) (sql : string),
    (forall log' s limit, exists msg,
        bigquery_execute_query svc log' s limit = Raise msg) ->
    retry_count state = Some n ->
    sql_query state = Some sql ->
    (depth_bound state <= fuel)%nat ->
    exists (final : AgentState) (log' : Log) (rounds : nat),
      execute_query_fuel fuel svc state log = Some (Ok final, log')
      /\ executions log' = (executions log + rounds)%nat
      /\ List.length (logged_errors final)
         = (List.length (logged_errors state) + rounds)%nat
      /\ Z.of_nat rounds <= Z.max 0 (max_retries - n)
      /\ retry_count final = Some (n + Z.of_nat rounds)
      /\ query_result final = query_result state
      /\ (truthy (error state) = false -> truthy (error final) = false ->
          max_retries <= n + Z.of_nat rounds).
Proof.
  induction fuel as [|fuel IH]; intros svc state log n sql Hfail Hn Hsql Hfuel.
  - unfold depth_bound in Hfuel. rewrite Hn in Hfuel. lia.
  - cbn [execute_query_fuel].
    destruct (truthy (error state)) eqn:Herr.
    { exists state, log, 0%nat. rewrite Nat.add_0_r, Z.add_0_r.
      repeat split; auto; try lia; try congruence. }
    rewrite Hn. destruct (n >=? max_retries) eqn:Hge.
    { exists state, log, 0%nat. rewrite Nat.add_0_r, Z.add_0_r.
      repeat split; auto; try lia.
      all: intros _ _; rewrite Z.geb_leb in Hge; now apply Z.leb_le. }
    apply retry_below_bound in Hge.
    unfold call_execute.
    destruct (Hfail log (sql_query state) (MAX_QUERY_ROWS svc)) as [msg Hmsg].
    rewrite Hmsg.
    replace (n <? max_retries) with true by (symmetry; now apply Z.ltb_lt).
    set (failed := set_error state (Some ("Query execution failed: " +:+ msg))).
    set (log1 := log ++ [CallExecute (sql_query state) (MAX_QUERY_ROWS svc)]).
    destruct (recover_shape svc failed msg sql log1 Hsql)
      as (st' & log2 & sql' & Hrec & Hsql' & Hres & Hretry & Herrs & Hexe & Hcleared).
    rewrite Hrec.
    destruct (IH svc (set_retry_count st' (Some (n + 1))) log2 (n + 1) sql'
                Hfail eq_refl Hsql')
      as (final & log' & rounds & Hrun & Hex' & Hlen' & Hbound & Hcount & Hresult & Hend).
    { unfold depth_bound in *. rewrite Hn in Hfuel. cbn [retry_count set_retry_count].
      unfold max_retries in *. lia. }
    exists final, log', (S rounds). split; [exact Hrun|].
    change (logged_errors (set_retry_count st' (Some (n + 1))))
      with (logged_errors st') in Hlen'.
    cbn [set_retry_count query_result error] in Hresult, Hend.
    rewrite Herrs, List.length_app in Hlen'.
    unfold log1 in Hexe. rewrite executions_app in Hexe. cbn in Hexe.
    unfold max_retries in *.
    change (logged_errors failed) with (logged_errors state) in Hlen'.
    change (query_result failed) with (query_result state) in Hres.
    cbn [List.length] in Hlen'.
    split; [lia|]. split; [lia|]. split; [lia|].
    split; [rewrite Hcount; f_equal; lia|].
    split; [now rewrite Hresult, Hres|].
    intros _ Hfinal. destruct (truthy (error st')) eqn:Hst'.
    + exfalso. destruct fuel as [|fuel']; [discriminate|].
      cbn [execute_query_fuel error set_retry_count] in Hrun. rewrite Hst' in Hrun.
      injection Hrun as <- _. cbn [error set_retry_count] in Hfinal. congruence.
    + specialize (Hend eq_refl Hfinal). lia.
Qed.

(** From a fresh state, a collaborator that always fails is executed at most
    [max_retries] times, each failure followed by one recovery; the run ends
    with no new result; and if it ends with the error field empty, then all
    [max_retries] recoveries were made. *)
Theorem always_failing_execution_is_bounded (svc : Services) (state : AgentState)
    (log : Log) (sql : string) :
  (forall log' s limit, exists msg,
      bigquery_execute_query svc log' s limit = Raise msg) ->
  retry_count state = Some 0 ->
  sql_query state = Some sql ->
  exists (final : AgentState) (log' : Log) (rounds : nat),
    execute_query svc state log = Some (Ok final, log')
    /\ (rounds <= 2)%nat
    /\ executions log' = (executions log + rounds)%nat
    /\ List.length (logged_errors final)
       = (List.length (logged_errors state) + rounds)%nat
    /\ query_result final = query_result state
    /\ (truthy (error state) = false -> truthy (error final) = false -> rounds = 2%nat).
Proof.
  intros Hfail Hn Hsql.
  destruct (execute_always_failing_rounds (depth_bound state) svc state log 0 sql
              Hfail Hn Hsql (Nat.le_refl _))
    as (final & log' & rounds & Hrun & Hex & Hlen & Hbound & _ & Hres & Hend).
  exists final, log', rounds. unfold max_retries in *.
  repeat split; auto; try lia.
  intros H1 H2. specialize (Hend H1 H2). lia.
Qed.

Lemma always_failing_execution_is_bounded_witness :
  exists (final : AgentState) (log' : Log) (rounds : nat),
    execute_query (failing_services "Table not found")
      (state_with_sql "Query" "SELECT * FROM invalid_table") []
    = Some (Ok final, log')
    /\ (rounds <= 2)%nat
    /\ executions log' = rounds.
Proof.
  destruct (always_failing_execution_is_bounded
              (failing_services "Table not found")
              (state_with_sql "Query" "SELECT * FROM invalid_table") []
              "SELECT * FROM invalid_table")
    as (final & log' & rounds & Hrun & Hle & Hex & _).
  - intros log' s limit. exists "Table not found". reflexivity.
  - reflexivity.
  - reflexivity.
  - exists final, log', rounds. auto.
Defined.

(** *** analyze_results and create_visualization *)

(** C3, a counterexample.  A result is present and the error is unset; the
    text generation raises.  [analyze_results] sets the error field. *)
Lemma analyze_results_failure_sets_error :
  let svc := services "unused" (Raise "429 quota exceeded") (Ok None) in
  let state :=
    set_query_result (state_with_sql "Count orders" "SELECT COUNT(*) FROM orders")
      (Some orders_table) in
  error state = None
  /\ query_result state = Some orders_table
  /\ exists log' : Log,
       analyze_results svc state []
       = (Ok (set_error state (Some "Insight generation failed: 429 quota exceeded")),
          log').
Proof. cbv zeta. split; [reflexivity|]. split; [reflexivity|]. eexists. reflexivity. Qed.

(** The same without any collaborator: with no text generation at hand and a
    request classified as a ranking, the template lacks a field. *)
Example analyze_results_ranking_template_sets_error :
  let state :=
    {| query := "Top products"; sql_query := Some "SELECT name, n FROM t";
       query_result := Some orders_table; insights := None;
       visualization_spec := None; error := None;
       query_metadata :=
         Some {| md_type := Some "ranking"; md_complexity := Some "medium";
                 md_original_query := Some "Top products" |};
       retry_count := Some 0; previous_errors := None |} in
  analyze_results (failing_services "unused") state []
  = (Ok (set_error state (Some "Insight generation failed: 'n'")), []).
Proof. reflexivity. Qed.

(** C3, amended.  In a state with a result and no error: when the insight
    generation raises [e], [analyze_results] returns the state with the error
    'Insight generation failed: e' and everything else, the insights among
    them, as it was; and [create_visualization] always returns a state with
    the error field as it was, with no visualization when the visualization
    service raised. *)
Theorem insight_failure_recorded_visualization_failure_absorbed
    (svc : Services) (state : AgentState) (df : DataFrame) (log : Log) :
  truthy (error state) = false ->
  query_result state = Some df ->
  (forall (e : string) (log' : Log),
      generate_insights svc state df log = (Raise e, log') ->
      analyze_results svc state log
      = (Ok (set_error state (Some ("Insight generation failed: " +:+ e))), log'))
  /\ (exists (st' : AgentState) (log' : Log),
        create_visualization svc state log = (Ok st', log')
        /\ error st' = error state
        /\ (forall e : string,
              viz_create_visualization svc log df (metadata_type state) (query state)
              = Raise e ->
              st' = set_visualization_spec state None)).
Proof.
  intros Herr Hres. split.
  - intros e log' Hraise. unfold analyze_results. now rewrite Herr, Hres, Hraise.
  - unfold create_visualization, call_visualize. rewrite Herr, Hres.
    destruct (viz_create_visualization svc log df (metadata_type state) (query state))
      as [spec|e0]; eexists _, _; (split; [reflexivity|]); (split; [reflexivity|]).
    + discriminate.
    + reflexivity.
Qed.

Lemma insight_failure_recorded_visualization_failure_absorbed_witness :
  let svc := services "unused" (Raise "429 quota exceeded") (Raise "altair missing") in
  let state :=
    set_query_result (state_with_sql "Count orders" "SELECT COUNT(*) FROM orders")
      (Some orders_table) in
  (exists log' : Log,
     analyze_results svc state []
     = (Ok (set_error state (Some "Insight generation failed: 429 quota exceeded")),
        log'))
  /\ exists log' : Log,
       create_visualization svc state [] = (Ok state, log').
Proof.
  intros svc state.
  destruct (insight_failure_recorded_visualization_failure_absorbed
              svc state orders_table [] eq_refl eq_refl) as [Hins Hviz].
  split.
  - exists (snd (generate_insights svc state orders_table [])).
    apply (Hins "429 quota exceeded"). vm_compute. reflexivity.
  - destruct Hviz as (st' & log' & Hrun & _ & Hnone).
    exists log'. rewrite Hrun. now rewrite (Hnone "altair missing" eq_refl).
Defined.

End NodesFacts.

(** ** Facts about the router *)

Module RouterFacts.
Import PyStr Nodes SpecializedAgents Samples.

(** [any(kw in query for kw in keywords)] holds when some keyword of the set
    occurs in the query. *)
Lemma any_in_spec (keywords : list string) (q : string) :
  any_in keywords q = true <-> exists kw, In kw keywords /\ contains kw q = true.
Proof. apply existsb_exists. Qed.

(** C9, a counterexample.  The request is already classified as customer
    analysis, one of the specialized tracks, and its text holds a geographic
    keyword and no customer keyword: the router answers the geographic
    track. *)
Lemma classification_does_not_override_keywords :
  let state := classified_state "Spending by state" "customer_analysis" in
  classified_type state = "customer_analysis"
  /\ any_in customer_keywords (lower (query state)) = false
  /\ route_to_agent state = "geographic".
Proof. repeat split. Qed.

(** A classification as geographic is not looked at. *)
Example geographic_classification_ignored :
  route_to_agent (classified_state "Show totals" "geographic") = "general".
Proof. reflexivity. Qed.

(** C9, amended.  The router goes through four levels in the order
    geographic, customer, product, temporal-or-sales, and the first level
    that fires decides; the default is the general track.  The geographic
    level fires on its keywords only.  Each of the other levels fires on its
    keywords or on the existing classification of that level
    (customer_analysis; product_analysis; temporal or sales_analysis), so a
    classification decides the track only when no level before it fired. *)
Theorem router_levels_in_order (state : AgentState) :
  let q := lower (query state) in
  let t := classified_type state in
  (any_in geo_keywords q = true -> route_to_agent state = "geographic")
  /\ (any_in geo_keywords q = false ->
      any_in customer_keywords q = true \/ t = "customer_analysis" ->
      route_to_agent state = "customer_segmentation")
  /\ (any_in geo_keywords q = false ->
      any_in customer_keywords q = false -> t ≠ "customer_analysis" ->
      any_in product_keywords q = true \/ t = "product_analysis" ->
      route_to_agent state = "product_performance")
  /\ (any_in geo_keywords q = false ->
      any_in customer_keywords q = false -> t ≠ "customer_analysis" ->
      any_in product_keywords q = false -> t ≠ "product_analysis" ->
      any_in temporal_keywords q = true \/ any_in sales_keywords q = true
      \/ t = "temporal" \/ t = "sales_analysis" ->
      route_to_agent state = "sales_trends")
  /\ (any_in geo_keywords q = false ->
      any_in customer_keywords q = false -> t ≠ "customer_analysis" ->
      any_in product_keywords q = false -> t ≠ "product_analysis" ->
      any_in temporal_keywords q = false -> any_in sales_keywords q = false ->
      t ≠ "temporal" -> t ≠ "sales_analysis" ->
      route_to_agent state = "general").
Proof.
  intros q t. unfold route_to_agent. fold q t.
  assert (Hts : any_in (temporal_keywords ++ sales_keywords) q
                = any_in temporal_keywords q || any_in sales_keywords q)
    by apply existsb_app.
  rewrite Hts. cbn [existsb]. rewrite orb_false_r.
  repeat split.
  - intros ->. reflexivity.
  - intros -> [-> | ->]; [reflexivity|]. rewrite String.eqb_refl, orb_true_r. reflexivity.
  - intros -> -> Hc [-> | ->].
    + apply String.eqb_neq in Hc. rewrite Hc. reflexivity.
    + cbn. rewrite orb_true_r. reflexivity.
  - intros -> -> Hc -> Hp Hany.
    apply String.eqb_neq in Hc, Hp. rewrite Hc, Hp. cbn [orb].
    destruct Hany as [-> | [-> | [-> | ->]]]; cbn; rewrite ?orb_true_r; reflexivity.
  - intros -> -> Hc -> Hp -> -> Ht Hs.
    apply String.eqb_neq in Hc, Hp, Ht, Hs. rewrite Hc, Hp, Ht, Hs. reflexivity.
Qed.

Lemma router_levels_in_order_witness :
  route_to_agent (classified_state "Show top products by revenue" "ranking")
  = "product_performance"
  /\ route_to_agent (classified_state "Query" "customer_analysis")
     = "customer_segmentation".
Proof.
  split.
  - destruct (router_levels_in_order
                (classified_state "Show top products by revenue" "ranking"))
      as (_ & _ & H & _).
    apply H; [reflexivity | reflexivity | discriminate | left; reflexivity].
  - destruct (router_levels_in_order (classified_state "Query" "customer_analysis"))
      as (_ & H & _).
    apply H; [reflexivity | right; reflexivity].
Defined.

End RouterFacts.

(** ** Worked runs *)

Module Runs.
Import PyStr Nodes SpecializedAgents Samples.

Example upper_run : upper "select  a_b1" = "SELECT  A_B1".
Proof. reflexivity. Qed.

Example strip_run : strip "  ab c
 " = "ab c".
Proof. reflexivity. Qed.

Example normalize_run :
  join " " (split (upper "  select   1
 from t ")) = "SELECT 1 FROM T".
Proof. reflexivity. Qed.

Example whole_word_found :
  re_search_word false "DROP" "SELECT 1; DROP TABLE t" = true.
Proof. reflexivity. Qed.

Example whole_word_inside_identifier :
  re_search_word false "UPDATE" "SELECT UPDATE_COUNT FROM t" = false.
Proof. reflexivity. Qed.

Example datediff_rewritten :
  re_sub_word true "DATEDIFF" "DATE_DIFF" "select datediff(a,b), xdatediff, DateDiff"
  = "select DATE_DIFF(a,b), xdatediff, DATE_DIFF".
Proof. reflexivity. Qed.

(** Destructive statement: rejected, no retry spent. *)
Example drop_table_rejected :
  validate_sql (state_with_sql "Drop table" "DROP TABLE orders")
  = Ok (set_error (state_with_sql "Drop table" "DROP TABLE orders")
          (Some "Query contains forbidden operation: DROP")).
Proof. reflexivity. Qed.

(** The first execution fails on DATEDIFF, the pattern rule rewrites the
    statement, the second execution succeeds and resets the retry counter. *)
Example datediff_recovered :
  let state :=
    state_with_sql "Days to ship"
      "SELECT DATEDIFF(shipped_at, created_at, DAY) FROM orders" in
  exists final : AgentState,
    execute_query datediff_services state []
    = Some (Ok final,
            [CallExecute
               (Some "SELECT DATEDIFF(shipped_at, created_at, DAY) FROM orders") 10000;
             CallExecute
               (Some "SELECT DATE_DIFF(shipped_at, created_at, DAY) FROM orders") 10000])
    /\ sql_query final
       = Some "SELECT DATE_DIFF(shipped_at, created_at, DAY) FROM orders"
    /\ query_result final = Some orders_table
    /\ error final = None
    /\ retry_count final = Some 0
    /\ previous_errors final = Some ["Function not found: DATEDIFF at [1:8]"].
Proof. cbv zeta. eexists. split; [reflexivity|]. repeat split. Qed.

Example routes :
  route_to_agent (create_initial_state "Show customer segments by age")
  = "customer_segmentation"
  /\ route_to_agent (create_initial_state "Show sales by location") = "geographic"
  /\ route_to_agent (create_initial_state "Show sales trends over time") = "sales_trends"
  /\ route_to_agent (create_initial_state "Count orders") = "general".
Proof. repeat split. Qed.

End Runs.

(** ** More facts about the result cache *)

Module CacheMoreFacts.
Import PyStr PyStrFacts CacheService CacheFacts Samples.

Local Abbreviation expired_at now :=
  (fun kv : string * CacheItem => expires_at kv.2 <= now).
Local Abbreviation valid_at now :=
  (fun kv : string * CacheItem => expires_at kv.2 > now).

Lemma filter_not_expired (m : gmap string CacheItem) (now : Z) :
  filter (fun kv : string * CacheItem => ¬ expires_at kv.2 <= now) m
  = filter (valid_at now) m.
Proof. apply map_filter_ext. intros k item _. cbn. lia. Qed.

Lemma filter_valid_of_valid (m : gmap string CacheItem) (now : Z) :
  filter (valid_at now) (filter (valid_at now) m) = filter (valid_at now) m.
Proof.
  apply map_eq. intros k. apply option_eq. intros item.
  rewrite !map_lookup_filter_Some. tauto.
Qed.

(** The sweep removes what the statistics count as expired, and nothing
    else: the number it returns is [expired_entries], the entries that stay
    are those with an expiry time after [now], unchanged, and the statistics
    of the swept cache show no expired entry and the same valid ones. *)
Theorem cleanup_expired_matches_stats (self : Cache) (now : Z) :
  let swept := (cleanup_expired self now).1 in
  Z.of_nat (cleanup_expired self now).2 = expired_entries (get_cache_stats self now)
  /\ (forall (k : string) (item : CacheItem),
        _query_cache swept !! k = Some item
        <-> _query_cache self !! k = Some item /\ now < expires_at item)
  /\ expired_entries (get_cache_stats swept now) = 0
  /\ valid_entries (get_cache_stats swept now) = valid_entries (get_cache_stats self now)
  /\ total_entries (get_cache_stats swept now) = valid_entries (get_cache_stats self now)
  /\ _ttl_seconds swept = _ttl_seconds self
  /\ cleanup_expired swept now = (swept, 0%nat).
Proof.
  cbv zeta. unfold cleanup_expired. cbn [fst snd].
  rewrite !filter_not_expired.
  split; [now rewrite stats_expired|].
  split.
  { intros k item. cbn. rewrite map_lookup_filter_Some. cbn. split.
    - intros [H1 H2]. split; [exact H1|lia].
    - intros [H1 H2]. split; [exact H1|lia]. }
  assert (Hnone : filter (expired_at now) (filter (valid_at now) (_query_cache self)) = ∅).
  { apply map_eq. intros k. rewrite lookup_empty. apply eq_None_not_Some.
    intros [item Hitem]. apply map_lookup_filter_Some in Hitem as [Hitem Hexp].
    apply map_lookup_filter_Some in Hitem as [_ Hval]. cbn in *. lia. }
  split.
  { rewrite stats_expired. cbn. rewrite Hnone. now rewrite map_size_empty. }
  split; [cbn; now rewrite filter_valid_of_valid|].
  split; [reflexivity|].
  split; [reflexivity|].
  unfold with_entries. cbn [_query_cache _ttl_seconds].
  rewrite filter_valid_of_valid, Hnone, map_size_empty.
  reflexivity.
Qed.

Section Service.

Variable json_dumps : gmap string JsonValue -> string.
Variable md5_hexdigest : string -> string.

Local Abbreviation key_of := (_generate_cache_key json_dumps md5_hexdigest).
Local Abbreviation get := (get_cached_result json_dumps md5_hexdigest).
Local Abbreviation put := (cache_result json_dumps md5_hexdigest).

Lemma df_copy_keeps (heap : Heap) (df l : ref) (table : DataFrame) :
  heap !! l = Some table -> (df_copy heap df).2 !! l = Some table.
Proof.
  intros Hl. unfold df_copy. destruct (heap !! df) as [t|]; cbn; [|exact Hl].
  rewrite lookup_insert_ne; [exact Hl|]. eapply fresh_not_allocated, Hl.
Qed.

(** A lookup never adds or changes an entry and never touches a table that
    exists: whatever is in the cache after the call was there before, the
    entries under other keys are all still there, a miss leaves the store as
    it was, and an answer leaves the cache as it was. *)
Theorem lookup_only_evicts_its_own_key (self : Cache) (heap : Heap) (q : string)
    (kwargs : gmap string JsonValue) (now : Z) :
  let '(answer, self', heap') := get self heap q kwargs now in
  (forall (k : string) (item : CacheItem),
      _query_cache self' !! k = Some item -> _query_cache self !! k = Some item)
  /\ (forall k : string,
        k ≠ key_of q kwargs -> _query_cache self' !! k = _query_cache self !! k)
  /\ _ttl_seconds self' = _ttl_seconds self
  /\ (forall (l : ref) (table : DataFrame),
        heap !! l = Some table -> heap' !! l = Some table)
  /\ (answer = None -> heap' = heap)
  /\ (forall l : ref, answer = Some l -> self' = self /\ heap !! l = None).
Proof.
  unfold get_cached_result.
  destruct (_query_cache self !! key_of q kwargs) as [item|] eqn:Hit.
  - destruct (decide (now > expires_at item)) as [Hexp|Hval].
    + repeat split; auto; try discriminate.
      * intros k it Hk. cbn in Hk. apply lookup_delete_Some in Hk. tauto.
      * intros k Hk. cbn. now apply lookup_delete_ne.
    + pose proof (df_copy_keeps heap (result item)) as Hkeep.
      assert (Hfresh : (df_copy heap (result item)).1 = fresh (dom heap))
        by (unfold df_copy; destruct (heap !! result item); reflexivity).
      destruct (df_copy heap (result item)) as [l heap'] eqn:Hcopy. cbn in *.
      repeat split; auto; try discriminate.
      match goal with H : Some _ = Some _ |- _ => injection H as <- end.
      subst l. apply not_elem_of_dom, is_fresh.
  - repeat split; auto; discriminate.
Qed.

(** A put writes one slot: entries under other keys, the TTL and the tables
    that exist are as before; the slot holds a new object with the table of
    [r], stamped with [now] and [now] plus the TTL; and a second put under
    the same key replaces the first without adding an entry. *)
Theorem put_writes_one_slot (self : Cache) (heap : Heap) (q : string) (r : ref)
    (kwargs : gmap string JsonValue) (now : Z) (table : DataFrame) :
  heap !! r = Some table ->
  let '(self1, heap1) := put self heap q r kwargs now in
  (forall k : string,
      k ≠ key_of q kwargs -> _query_cache self1 !! k = _query_cache self !! k)
  /\ _ttl_seconds self1 = _ttl_seconds self
  /\ (forall (l : ref) (t : DataFrame), heap !! l = Some t -> heap1 !! l = Some t)
  /\ (exists item : CacheItem,
        _query_cache self1 !! key_of q kwargs = Some item
        /\ heap !! result item = None
        /\ heap1 !! result item = Some table
        /\ cached_at item = now
        /\ expires_at item = now + timedelta_seconds (_ttl_seconds self)
        /\ query item = q)
  /\ (forall (q2 : string) (r2 : ref) (now2 : Z) (table2 : DataFrame),
        key_of q2 kwargs = key_of q kwargs ->
        heap1 !! r2 = Some table2 ->
        let '(self2, heap2) := put self1 heap1 q2 r2 kwargs now2 in
        size (_query_cache self2) = size (_query_cache self1)
        /\ exists item2 : CacheItem,
             _query_cache self2 !! key_of q kwargs = Some item2
             /\ heap2 !! result item2 = Some table2
             /\ query item2 = q2).
Proof.
  intros Hr. rewrite (put_spec _ _ _ _ _ _ _ _ _ Hr).
  split; [intros k Hk; cbn; now apply lookup_insert_ne|].
  split; [reflexivity|].
  split.
  { intros l t Hl. rewrite lookup_insert_ne; [exact Hl|].
    eapply fresh_not_allocated, Hl. }
  split.
  { eexists. cbn. split; [apply lookup_insert_eq|]. cbn.
    split; [apply not_elem_of_dom, is_fresh|].
    split; [apply lookup_insert_eq|]. auto. }
  intros q2 r2 now2 table2 Hkey Hr2.
  rewrite (put_spec _ _ _ _ _ _ _ _ _ Hr2). cbn. rewrite Hkey. split.
  - rewrite insert_insert_eq.
    rewrite !map_size_insert. reflexivity.
  - eexists. split; [apply lookup_insert_eq|]. cbn.
    split; [apply lookup_insert_eq|reflexivity].
Qed.

(** At the instant an entry expires ([now] equal to its expiry time) the
    three operations differ: a lookup still answers the entry, the
    statistics count it as expired, and the sweep removes it. *)
Theorem expiry_instant_is_served_and_swept (self : Cache) (heap : Heap) (q : string)
    (kwargs : gmap string JsonValue) (item : CacheItem) (table : DataFrame) :
  _query_cache self !! key_of q kwargs = Some item ->
  heap !! result item = Some table ->
  let now := expires_at item in
  (exists (l : ref) (heap' : Heap),
     get self heap q kwargs now = (Some l, self, heap') /\ heap' !! l = Some table)
  /\ 1 <= expired_entries (get_cache_stats self now)
  /\ _query_cache (cleanup_expired self now).1 !! key_of q kwargs = None.
Proof.
  intros Hit Hobj now. split; [|split].
  - eexists _, _. split.
    + apply (get_valid _ _ _ _ _ _ _ _ _ Hit Hobj). unfold now. lia.
    + apply lookup_insert_eq.
  - rewrite stats_expired.
    assert (Hin : filter (expired_at now) (_query_cache self) !! key_of q kwargs
                  = Some item).
    { apply map_lookup_filter_Some. split; [exact Hit|]. cbn. unfold now. lia. }
    assert (Hpos : size (filter (expired_at now) (_query_cache self)) ≠ 0%nat).
    { intros Hz. apply map_size_empty_iff in Hz. rewrite Hz in Hin.
      rewrite lookup_empty in Hin. discriminate. }
    lia.
  - unfold cleanup_expired. cbn. apply map_lookup_filter_None. right.
    intros it Hit' Hkeep. cbn in Hkeep. rewrite Hit in Hit'. injection Hit' as <-.
    apply Hkeep. unfold now. lia.
Qed.

(** After [clear_cache] every lookup misses and changes nothing, and the
    statistics are empty; the TTL stays. *)
Theorem clear_cache_empties (self : Cache) (heap : Heap) (q : string)
    (kwargs : gmap string JsonValue) (now : Z) :
  get (clear_cache self) heap q kwargs now = (None, clear_cache self, heap)
  /\ total_entries (get_cache_stats (clear_cache self) now) = 0%nat
  /\ valid_entries (get_cache_stats (clear_cache self) now) = 0%nat
  /\ expired_entries (get_cache_stats (clear_cache self) now) = 0
  /\ ttl_seconds (get_cache_stats (clear_cache self) now) = _ttl_seconds self.
Proof.
  unfold get_cached_result, clear_cache, get_cache_stats. cbn.
  rewrite lookup_empty, map_filter_empty, map_size_empty. repeat split.
Qed.

End Service.

Lemma put_writes_one_slot_witness :
  exists item : CacheItem,
    _query_cache
      (cache_result sample_json_dumps sample_digest (init 3600) one_table_heap
         "select 1" 1%positive ∅ 1000).1 !! "SELECT 1" = Some item
    /\ cached_at item = 1000
    /\ expires_at item = 3600001000
    /\ query item = "select 1".
Proof.
  pose proof (put_writes_one_slot sample_json_dumps sample_digest (init 3600)
                one_table_heap "select 1" 1%positive ∅ 1000 orders_table eq_refl) as H.
  destruct (cache_result sample_json_dumps sample_digest (init 3600) one_table_heap
              "select 1" 1%positive ∅ 1000) as [self1 heap1].
  destruct H as (_ & _ & _ & (item & Hit & _ & _ & Hat & Hexp & Hq) & _).
  exists item. cbn [fst]. repeat split; assumption.
Defined.

Lemma expiry_instant_is_served_and_swept_witness :
  let item := {| result := 1%positive; expires_at := 5000; cached_at := 0;
                 query := "SELECT 1" |} in
  let self := {| _query_cache := {[ "SELECT 1" := item ]}; _ttl_seconds := 3600 |} in
  (exists (l : ref) (heap' : Heap),
     get_cached_result sample_json_dumps sample_digest self one_table_heap
       "select 1" ∅ 5000 = (Some l, self, heap')
     /\ heap' !! l = Some orders_table)
  /\ 1 <= expired_entries (get_cache_stats self 5000)
  /\ _query_cache (cleanup_expired self 5000).1 !! "SELECT 1" = None.
Proof.
  intros item self.
  apply (expiry_instant_is_served_and_swept sample_json_dumps sample_digest self
           one_table_heap "select 1" ∅ item orders_table); reflexivity.
Defined.

End CacheMoreFacts.

(** ** Facts about the other nodes, the edge and the agents *)

Module WorkflowFacts.
Import PyStr PyStrFacts Nodes SpecializedAgents Prompts Workflow NodesFacts Samples.

(** *** What the stages leave alone *)

Lemma llm_correction_extends_log (sch : Log -> bool -> result string)
    (llm : Log -> string -> result string) (user_query failed_sql error_msg : string)
    (log : Log) :
  exists more : Log,
    snd (llm_correction sch llm user_query failed_sql error_msg log) = log ++ more.
Proof.
  unfold llm_correction, bind, call_schema_context, call_generate_text, ret.
  destruct (sch log false) as [ctx|e]; cbn [snd].
  - destruct (llm _ _); cbn [snd]; rewrite <- List.app_assoc; eauto.
  - eauto.
Qed.

(** A recovery writes [sql_query], [error] and [previous_errors] only, and
    only adds calls to the log. *)
Lemma recover_frame (svc : Services) (state st' : AgentState) (error_msg : string)
    (log log' : Log) :
  _recover_from_error svc state error_msg log = (Ok st', log') ->
  same_request st' state
  /\ query_result st' = query_result state
  /\ insights st' = insights state
  /\ visualization_spec st' = visualization_spec state
  /\ retry_count st' = retry_count state
  /\ exists more : Log, log' = log ++ more.
Proof.
  unfold _recover_from_error, same_request.
  destruct (sql_query state) as [failed_sql|]; [|discriminate].
  assert (Hplain : forall corrected,
            (Ok (apply_correction (with_logged_error state error_msg) corrected), log)
            = (Ok st', log') ->
            (query st' = query state /\ query_metadata st' = query_metadata state)
            /\ query_result st' = query_result state
            /\ insights st' = insights state
            /\ visualization_spec st' = visualization_spec state
            /\ retry_count st' = retry_count state
            /\ exists more : Log, log' = log ++ more).
  { intros corrected [= <- <-]. cbn. repeat split. exists []. now rewrite List.app_nil_r. }
  assert (Hllm : forall sch llm,
            match llm_correction sch llm (query state) failed_sql error_msg log with
            | (Ok corrected_sql, log'0) =>
                (Ok (apply_correction (with_logged_error state error_msg) corrected_sql),
                 log'0)
            | (Raise _, log'0) => (Ok (with_logged_error state error_msg), log'0)
            end = (Ok st', log') ->
            (query st' = query state /\ query_metadata st' = query_metadata state)
            /\ query_result st' = query_result state
            /\ insights st' = insights state
            /\ visualization_spec st' = visualization_spec state
            /\ retry_count st' = retry_count state
            /\ exists more : Log, log' = log ++ more).
  { intros sch llm H.
    destruct (llm_correction_extends_log sch llm (query state) failed_sql error_msg log)
      as [more Hmore].
    destruct (llm_correction sch llm (query state) failed_sql error_msg log)
      as [[fixed|e] log2]; cbn [snd] in Hmore; injection H as <- <-;
      cbn; repeat split; eauto. }
  destruct (timestamp_rule error_msg);
    [|destruct (column_rule error_msg)];
    destruct (llm_service svc) as [llm|]; destruct (schema_service svc) as [sch|];
    intros H; first [exact (Hllm _ _ H) | exact (Hplain _ H)].
Qed.

(** [execute_query] never writes the request, its classification, the
    insights or the visualization, and only adds calls to the log. *)
Lemma execute_query_fuel_frame (fuel : nat) :
  forall (svc : Services) (state st' : AgentState) (log log' : Log),
    execute_query_fuel fuel svc state log = Some (Ok st', log') ->
    same_request st' state
    /\ insights st' = insights state
    /\ visualization_spec st' = visualization_spec state
    /\ exists more : Log, log' = log ++ more.
Proof.
  assert (Hsame : forall st log, same_request st st /\ insights st = insights st
                    /\ visualization_spec st = visualization_spec st
                    /\ exists more : Log, log = log ++ more).
  { intros st log. unfold same_request. repeat split. exists []. now rewrite List.app_nil_r. }
  induction fuel as [|fuel IH]; intros svc state st' log log' H; [discriminate|].
  cbn [execute_query_fuel] in H.
  destruct (truthy (error state)); [injection H as <- <-; apply Hsame|].
  destruct (retry_count state) as [n|]; [|discriminate].
  destruct (n >=? max_retries); [injection H as <- <-; apply Hsame|].
  unfold call_execute in H.
  destruct (bigquery_execute_query svc log (sql_query state) (MAX_QUERY_ROWS svc))
    as [df|msg].
  - cbn [error set_query_result] in H. unfold same_request.
    destruct (truthy (error state)); injection H as <- <-; cbn;
      repeat split; eexists; reflexivity.
  - destruct (n <? max_retries).
    + destruct (_recover_from_error svc _ msg _) as [[st1|m] log2] eqn:Hrec;
        [|discriminate].
      apply recover_frame in Hrec
        as ((Hq & Hm) & _ & Hi & Hv & _ & more1 & ->).
      apply IH in H as ((Hq' & Hm') & Hi' & Hv' & more2 & ->).
      cbn in *. unfold same_request. repeat split; try congruence.
      rewrite <- !List.app_assoc. eauto.
    + injection H as <- <-. unfold same_request. cbn. repeat split.
      eexists; reflexivity.
Qed.

Lemma validate_sql_frame (state st' : AgentState) :
  validate_sql state = Ok st' ->
  st' = state \/ exists msg : string, st' = set_error state (Some msg).
Proof.
  unfold validate_sql.
  destruct (truthy (error state)); [intros [= <-]; now left|].
  destruct (sql_query state) as [sql|]; [|discriminate].
  destruct (first_forbidden sql); [intros [= <-]; right; eauto|].
  destruct (contains "SELECT" sql); intros [= <-]; [now left|right; eauto].
Qed.

Lemma analyze_results_frame (svc : Services) (state : AgentState) (log log' : Log)
    (r : result AgentState) :
  analyze_results svc state log = (r, log') ->
  r = Ok state
  \/ (exists text : string, r = Ok (set_insights state (Some text)))
  \/ exists msg : string, r = Ok (set_error state (Some msg)).
Proof.
  unfold analyze_results.
  destruct (truthy (error state)); [intros [= <- _]; now left|].
  destruct (query_result state) as [df|]; [|intros [= <- _]; now left].
  destruct (generate_insights svc state df log) as [[text|e] log1];
    intros [= <- _]; right; [left|right]; eauto.
Qed.

Lemma create_visualization_frame (svc : Services) (state : AgentState)
    (log log' : Log) (r : result AgentState) :
  create_visualization svc state log = (r, log') ->
  r = Ok state \/ exists spec, r = Ok (set_visualization_spec state spec).
Proof.
  unfold create_visualization.
  destruct (truthy (error state)); [intros [= <- _]; now left|].
  destruct (query_result state) as [df|]; [|intros [= <- _]; now left].
  destruct (call_visualize svc df (metadata_type state) (query state) log)
    as [[spec|e] log1]; intros [= <- _]; right; eauto.
Qed.

(** Each stage writes its own fields only.  [validate_sql] can only set the
    error; [execute_query] never writes the request, its classification, the
    insights or the visualization, and never takes a call back from the log;
    [analyze_results] can only set the insights or the error;
    [create_visualization] can only set the visualization. *)
Theorem stages_write_only_their_fields (svc : Services) (state : AgentState)
    (log : Log) :
  (forall st' : AgentState,
      validate_sql state = Ok st' ->
      st' = state \/ exists msg : string, st' = set_error state (Some msg))
  /\ (forall (st' : AgentState) (log' : Log),
        execute_query svc state log = Some (Ok st', log') ->
        query st' = query state
        /\ query_metadata st' = query_metadata state
        /\ insights st' = insights state
        /\ visualization_spec st' = visualization_spec state
        /\ exists more : Log, log' = log ++ more)
  /\ (forall (r : result AgentState) (log' : Log),
        analyze_results svc state log = (r, log') ->
        r = Ok state
        \/ (exists text : string, r = Ok (set_insights state (Some text)))
        \/ exists msg : string, r = Ok (set_error state (Some msg)))
  /\ (forall (r : result AgentState) (log' : Log),
        create_visualization svc state log = (r, log') ->
        r = Ok state \/ exists spec, r = Ok (set_visualization_spec state spec)).
Proof.
  split; [|split; [|split]].
  - apply validate_sql_frame.
  - intros st' log' H. apply execute_query_fuel_frame in H as ((Hq & Hm) & Hi & Hv & Hl).
    auto.
  - intros r log'. apply analyze_results_frame.
  - intros r log'. apply create_visualization_frame.
Qed.

(** *** understand_query *)

Lemma classify_range (q : string) :
  In (classify q)
    [("count", "simple"); ("ranking", "medium"); ("aggregation", "medium");
     ("temporal", "complex"); ("customer_analysis", "medium");
     ("product_analysis", "medium"); ("sales_analysis", "medium");
     ("general", "simple")].
Proof.
  unfold classify.
  repeat match goal with
         | |- context [if ?b then _ else _] => destruct b
         end; cbn; tauto.
Qed.

(** [understand_query] writes the classification only: one of eight types
    with one of three complexities, the request text kept as
    [original_query].  A request whose lower-cased text holds "join", "with"
    or "and" anywhere, inside a longer word too, is complex, whatever its
    type; so is every temporal request. *)
Theorem understand_query_classifies (state : AgentState) :
  exists query_type complexity : string,
    understand_query state
    = set_query_metadata state
        (Some {| md_type := Some query_type; md_complexity := Some complexity;
                 md_original_query := Some (query state) |})
    /\ In query_type
         ["count"; "ranking"; "aggregation"; "temporal"; "customer_analysis";
          "product_analysis"; "sales_analysis"; "general"]
    /\ In complexity ["simple"; "medium"; "complex"]
    /\ (any_in ["join"; "with"; "and"] (lower (query state)) = true ->
        complexity = "complex")
    /\ (query_type = "temporal" -> complexity = "complex")
    /\ (query_type = "general" ->
        any_in ["join"; "with"; "and"] (lower (query state)) = false ->
        complexity = "simple").
Proof.
  unfold understand_query.
  pose proof (classify_range (lower (query state))) as Hrange.
  destruct (classify (lower (query state))) as [t c].
  destruct (any_in ["join"; "with"; "and"] (lower (query state)));
    eexists _, _; (split; [reflexivity|]);
    cbn in Hrange;
    repeat (destruct Hrange as [[= <- <-] | Hrange];
            [cbn; repeat split; intros; try tauto; try discriminate|]);
    try contradiction.
Qed.

Ltac split_classify :=
  unfold classify;
  repeat match goal with
         | |- context [if any_in ?l ?q then _ else _] =>
             let H := fresh "Hany" in destruct (any_in l q) eqn:H
         end; cbn [fst]; try discriminate.

Ltac keyword_found H :=
  cbn [any_in existsb] in H |- *;
  repeat match goal with
         | |- context [contains ?k ?q] => destruct (contains k q)
         end; cbn in *; congruence.

Lemma classify_customer (q : string) :
  fst (classify q) = "customer_analysis" -> any_in customer_keywords q = true.
Proof. split_classify. intros _. unfold customer_keywords. keyword_found Hany3. Qed.

Lemma classify_product (q : string) :
  fst (classify q) = "product_analysis" -> any_in product_keywords q = true.
Proof. split_classify. intros _. unfold product_keywords. keyword_found Hany4. Qed.

Lemma classify_temporal (q : string) :
  fst (classify q) = "temporal" -> any_in temporal_keywords q = true.
Proof. split_classify. intros _. unfold temporal_keywords. keyword_found Hany2. Qed.

Lemma classify_sales (q : string) :
  fst (classify q) = "sales_analysis" -> any_in sales_keywords q = true.
Proof. split_classify. intros _. unfold sales_keywords. keyword_found Hany5. Qed.

(** The entry of the multi-agent graph: [understand_query], then the
    router.  For a state classified by [understand_query] the router's
    answer is the one of the request text alone, as if there were no
    classification: a type that [understand_query] assigns always comes with
    a keyword of the router's level of that type. *)
Theorem route_after_understand_query (state : AgentState) :
  route_to_agent (understand_query state)
  = route_to_agent (set_query_metadata state None).
Proof.
  unfold route_to_agent, understand_query, classified_type.
  destruct (classify (lower (query state))) as [t c] eqn:Hc.
  cbn [query set_query_metadata query_metadata md_type].
  set (q := lower (query state)) in *.
  assert (Ht : fst (classify q) = t) by now rewrite Hc.
  destruct (any_in geo_keywords q); [reflexivity|].
  change (String.eqb "general" "customer_analysis") with false.
  change (String.eqb "general" "product_analysis") with false.
  change (existsb (String.eqb "general") ["temporal"; "sales_analysis"]) with false.
  rewrite !orb_false_r.
  assert (Hcust : any_in customer_keywords q || String.eqb t "customer_analysis"
                  = any_in customer_keywords q).
  { destruct (String.eqb t "customer_analysis") eqn:E; [|apply orb_false_r].
    apply String.eqb_eq in E. rewrite E in Ht. now rewrite (classify_customer _ Ht). }
  assert (Hprod : any_in product_keywords q || String.eqb t "product_analysis"
                  = any_in product_keywords q).
  { destruct (String.eqb t "product_analysis") eqn:E; [|apply orb_false_r].
    apply String.eqb_eq in E. rewrite E in Ht. now rewrite (classify_product _ Ht). }
  assert (Hts : any_in (temporal_keywords ++ sales_keywords) q
                || existsb (String.eqb t) ["temporal"; "sales_analysis"]
                = any_in (temporal_keywords ++ sales_keywords) q).
  { unfold any_in at 1 2. rewrite existsb_app. fold (any_in temporal_keywords q).
    fold (any_in sales_keywords q). cbn [existsb].
    destruct (String.eqb t "temporal") eqn:E1.
    - apply String.eqb_eq in E1. rewrite E1 in Ht. now rewrite (classify_temporal _ Ht).
    - destruct (String.eqb t "sales_analysis") eqn:E2; [|now rewrite !orb_false_r].
      apply String.eqb_eq in E2. rewrite E2 in Ht. rewrite (classify_sales _ Ht).
      now rewrite !orb_true_r. }
  now rewrite Hcust, Hprod, Hts.
Qed.

(** *** generate_sql *)


(** *** should_continue after validate_sql *)

Lemma contains_nonempty (needle hay : string) :
  needle <> EmptyString -> contains needle hay = true -> hay <> EmptyString.
Proof.
  intros Hn Hc ->. destruct needle; [congruence|]. cbn in Hc. discriminate.
Qed.

(** The edge that follows [validate_sql] is declared for two answers,
    "execute_query" and "end".  On a state without a result, whatever
    [validate_sql] returns, [should_continue] gives one of the two:
    "execute_query" when the state has no error, "end" when it has one. *)
Theorem should_continue_after_validation (state st' : AgentState) :
  query_result state = None ->
  validate_sql state = Ok st' ->
  (truthy (error st') = false /\ should_continue st' = "execute_query")
  \/ (truthy (error st') = true /\ should_continue st' = "end").
Proof.
  intros Hres. unfold validate_sql, should_continue.
  destruct (truthy (error state)) eqn:Herr.
  - intros [= <-]. right. now rewrite Herr.
  - destruct (sql_query state) as [sql|] eqn:Hsql; [|discriminate].
    destruct (first_forbidden sql); [intros [= <-]; right; cbn; auto|].
    destruct (contains "SELECT" sql) eqn:Hsel; intros [= <-].
    + left. rewrite Herr, Hsql, Hres. split; [reflexivity|].
      assert (Hne : sql <> EmptyString)
        by (eapply contains_nonempty; [|exact Hsel]; discriminate).
      destruct sql; [congruence|reflexivity].
    + right. cbn. auto.
Qed.

Lemma should_continue_after_validation_witness :
  should_continue (state_with_sql "Count orders" "SELECT COUNT(*) FROM orders")
  = "execute_query"
  /\ exists st' : AgentState,
       validate_sql (state_with_sql "Drop" "DROP TABLE orders") = Ok st'
       /\ should_continue st' = "end".
Proof.
  split.
  - destruct (should_continue_after_validation
                (state_with_sql "Count orders" "SELECT COUNT(*) FROM orders")
                (state_with_sql "Count orders" "SELECT COUNT(*) FROM orders")
                eq_refl eq_refl) as [[_ H] | [H _]]; [exact H|discriminate].
  - eexists. split; [reflexivity|].
    destruct (should_continue_after_validation
                (state_with_sql "Drop" "DROP TABLE orders") _ eq_refl eq_refl)
      as [[H _] | [_ H]]; [discriminate|exact H].
Defined.

(** *** The specialized agents *)

Lemma agent_entry_spec (query_type complexity : string) (state : AgentState) :
  exists md : Metadata,
    agent_entry query_type complexity state = set_query_metadata state (Some md)
    /\ md_type md = Some query_type
    /\ md_complexity md = Some complexity.
Proof.
  unfold agent_entry, lacks_metadata, override_classification.
  destruct (query_metadata state) as [md|] eqn:Hmd.
  - destruct (metadata_truthy md); cbn [negb].
    + rewrite Hmd. eexists. split; [reflexivity|]. split; reflexivity.
    + unfold understand_query. destruct (classify _) as [t c].
      eexists. split; [reflexivity|]. split; reflexivity.
  - unfold understand_query. destruct (classify _) as [t c].
    eexists. split; [reflexivity|]. split; reflexivity.
Qed.

Lemma specialized_agent_unfold (query_type complexity : string)
    (finish_prompt : string -> string) (svc : Services) (state : AgentState)
    (log : Log) :
  specialized_agent query_type complexity finish_prompt svc state log
  = match llm_service svc, schema_service svc with
    | Some llm, Some sch =>
        match agent_generate finish_prompt sch llm
                (agent_entry query_type complexity state) log with
        | (Raise e, log') => Some (Raise e, log')
        | (Ok state, log') => standard_workflow svc state log'
        end
    | _, _ => standard_workflow svc (agent_entry query_type complexity state) log
    end.
Proof. reflexivity. Qed.

(** The workflow after the generation keeps the request and its
    classification. *)
Lemma standard_workflow_frame (svc : Services) (state st' : AgentState)
    (log log' : Log) :
  standard_workflow svc state log = Some (Ok st', log') ->
  same_request st' state.
Proof.
  unfold standard_workflow, same_request.
  destruct (validate_sql state) as [st1|e] eqn:Hv; [|discriminate].
  apply validate_sql_frame in Hv.
  assert (H1 : query st1 = query state /\ query_metadata st1 = query_metadata state)
    by (destruct Hv as [-> | [msg ->]]; split; reflexivity).
  clear Hv.
  destruct (truthy (error st1)); cbn [negb]; [intros [= <- _]; exact H1|].
  destruct (execute_query svc st1 log) as [[[st2|e] log2]|] eqn:Hrun; try discriminate.
  unfold execute_query in Hrun.
  apply execute_query_fuel_frame in Hrun as ((Hq & Hm) & _).
  destruct (truthy (error st2)); cbn [negb];
    [intros [= <- _]; split; [rewrite Hq|rewrite Hm]; apply H1|].
  destruct (analyze_results svc st2 log2) as [[st3|e] log3] eqn:Ha; [|discriminate].
  apply analyze_results_frame in Ha.
  assert (H3 : query st3 = query st2 /\ query_metadata st3 = query_metadata st2)
    by (destruct Ha as [[= ->] | [[text [= ->]] | [msg [= ->]]]]; split; reflexivity).
  intros [= Hc]. apply create_visualization_frame in Hc.
  destruct H1 as [H1q H1m]. destruct H3 as [H3q H3m].
  destruct Hc as [[= ->] | [spec [= ->]]]; cbn; split; congruence.
Qed.

Lemma standard_workflow_returns (svc : Services) (state : AgentState) (log : Log) :
  exists r log', standard_workflow svc state log = Some (r, log').
Proof.
  unfold standard_workflow.
  destruct (validate_sql state) as [st1|e]; [|eauto].
  destruct (truthy (error st1)); cbn [negb]; [eauto|].
  destruct (execute_query_fuel_total (depth_bound st1) svc st1 log) as [[r log1] Hrun].
  { unfold depth_bound. destruct (retry_count st1); lia. }
  unfold execute_query. rewrite Hrun.
  destruct r as [st2|e]; [|eauto].
  destruct (truthy (error st2)); cbn [negb]; [eauto|].
  destruct (analyze_results svc st2 log1) as [[st3|e] log3]; [|eauto].
  destruct (create_visualization svc st3 log3) as [r4 log4]. eauto.
Qed.

(** Every specialized agent returns, and a state it returns holds the
    request it was given and the classification of the agent, whatever the
    classification at entry and whatever the collaborators do. *)
Theorem agent_returns_with_its_classification (query_type complexity : string)
    (finish_prompt : string -> string) (svc : Services) (state : AgentState)
    (log : Log) :
  exists (r : result AgentState) (log' : Log),
    specialized_agent query_type complexity finish_prompt svc state log
    = Some (r, log')
    /\ forall st' : AgentState,
         r = Ok st' ->
         query st' = query state
         /\ exists md : Metadata,
              query_metadata st' = Some md
              /\ md_type md = Some query_type
              /\ md_complexity md = Some complexity.
Proof.
  rewrite specialized_agent_unfold.
  destruct (agent_entry_spec query_type complexity state) as (md & He & Ht & Hc).
  assert (Hflow : forall st log0,
             query st = query state -> query_metadata st = Some md ->
             exists r log', standard_workflow svc st log0 = Some (r, log')
               /\ forall st', r = Ok st' ->
                    query st' = query state
                    /\ exists md0, query_metadata st' = Some md0
                         /\ md_type md0 = Some query_type
                         /\ md_complexity md0 = Some complexity).
  { intros st log0 Hq Hm.
    destruct (standard_workflow_returns svc st log0) as (r & log' & Hrun).
    exists r, log'. split; [exact Hrun|].
    intros st' ->. apply standard_workflow_frame in Hrun as [Hq' Hm'].
    split; [congruence|]. exists md. rewrite Hm', Hm. auto. }
  destruct (llm_service svc) as [llm|]; [destruct (schema_service svc) as [sch|]|].
  - unfold agent_generate.
    cbv [bind call_schema_context call_generate_text ret].
    destruct (sch log true) as [ctx|e].
    2:{ eexists _, _. split; [reflexivity|]. discriminate. }
    match goal with
    | |- context [llm ?l ?p] => destruct (llm l p) as [text|e]
    end.
    2:{ eexists _, _. split; [reflexivity|]. discriminate. }
    apply Hflow; rewrite He; reflexivity.
  - apply Hflow; rewrite He; reflexivity.
  - apply Hflow; rewrite He; reflexivity.
Qed.

(** A failure of the text generation (or of the schema collaborator) leaves a
    specialized agent as an exception, with nothing executed, where the node
    [generate_sql] of the general track records the same failure in the
    state's error field and returns. *)
Theorem agent_generation_failure_escapes (query_type complexity : string)
    (finish_prompt : string -> string) (svc : Services) (state : AgentState)
    (log : Log) (llm : Log -> string -> result string)
    (sch : Log -> bool -> result string) (e : string) :
  llm_service svc = Some llm ->
  schema_service svc = Some sch ->
  (forall (l : Log) (prompt : string), llm l prompt = Raise e) ->
  exists (e' : string) (log1 log2 : Log),
    specialized_agent query_type complexity finish_prompt svc state log
    = Some (Raise e', log1)
    /\ executions log1 = executions log
    /\ generate_sql (Ok svc) state log
       = (Ok (set_error state (Some ("SQL generation failed: " +:+ e'))), log2)
    /\ executions log2 = executions log.
Proof.
  intros Hllm Hsch Hfail.
  rewrite specialized_agent_unfold. unfold generate_sql, generate_sql_body.
  rewrite Hllm, Hsch. unfold agent_generate.
  cbv [bind call_schema_context llm_generate_sql call_generate_text ret].
  destruct (sch log true) as [ctx|e0].
  - rewrite !Hfail. eexists _, _, _. split; [reflexivity|].
    split; [|split; [reflexivity|]];
      rewrite <- ?List.app_assoc, !executions_app; cbn; lia.
  - eexists _, _, _. split; [reflexivity|].
    split; [|split; [reflexivity|]]; rewrite !executions_app; cbn; lia.
Qed.

(** *** What is executed *)

Lemma recover_extends_log (svc : Services) (state : AgentState) (error_msg : string)
    (log : Log) :
  exists more : Log,
    snd (_recover_from_error svc state error_msg log) = log ++ more
    /\ List.filter is_execution more = [].
Proof.
  assert (Hnil : exists more : Log,
             log = log ++ more /\ List.filter is_execution more = [])
    by (exists []; now rewrite List.app_nil_r).
  assert (Hllm : forall sch llm failed_sql (a : string -> AgentState) (b : AgentState),
             exists more : Log,
               snd (match llm_correction sch llm (query state) failed_sql error_msg log
                    with
                    | (Ok corrected_sql, log') => (Ok (a corrected_sql), log')
                    | (Raise _, log') => (Ok b, log')
                    end) = log ++ more
               /\ List.filter is_execution more = []).
  { intros sch llm failed_sql a b.
    unfold llm_correction, bind, call_schema_context, call_generate_text, ret.
    destruct (sch log false) as [ctx|e]; cbn [snd].
    - match goal with
      | |- context [llm ?l ?p] => destruct (llm l p) as [text|e]
      end; cbn [snd]; rewrite <- List.app_assoc; eexists; split; reflexivity.
    - eexists; split; reflexivity. }
  unfold _recover_from_error.
  destruct (sql_query state) as [failed_sql|]; [|exact Hnil].
  destruct (timestamp_rule error_msg);
    [|destruct (column_rule error_msg)];
    destruct (llm_service svc) as [llm|]; destruct (schema_service svc) as [sch|];
    first [exact Hnil | apply Hllm].
Qed.

(** The calls of one [execute_query]: none, or a first execution of the
    statement the state holds, followed by whatever the retries add. *)
Lemma execute_query_fuel_log (fuel : nat) :
  forall (svc : Services) (state : AgentState) (log log' : Log)
         (r : result AgentState),
    execute_query_fuel fuel svc state log = Some (r, log') ->
    log' = log
    \/ exists rest : Log,
         log' = log ++ CallExecute (sql_query state) (MAX_QUERY_ROWS svc) :: rest.
Proof.
  induction fuel as [|fuel IH]; intros svc state log log' r H; [discriminate|].
  cbn [execute_query_fuel] in H.
  destruct (truthy (error state)); [injection H as _ <-; now left|].
  destruct (retry_count state) as [n|]; [|injection H as _ <-; now left].
  destruct (n >=? max_retries); [injection H as _ <-; now left|].
  right. unfold call_execute in H.
  destruct (bigquery_execute_query svc log (sql_query state) (MAX_QUERY_ROWS svc))
    as [df|msg].
  - injection H as _ <-. exists []. reflexivity.
  - destruct (n <? max_retries); [|injection H as _ <-; exists []; reflexivity].
    match type of H with
    | context [_recover_from_error svc ?s ?m ?l] =>
        destruct (recover_extends_log svc s m l) as (more & Hmore & _);
        destruct (_recover_from_error svc s m l) as [[st1|m1] log2]
    end; cbn [snd] in Hmore; subst log2.
    + apply IH in H as [-> | [rest ->]];
        rewrite <- !List.app_assoc; cbn [List.app]; eauto.
    + injection H as _ <-. rewrite <- List.app_assoc. cbn [List.app]. eauto.
Qed.

Lemma analyze_results_log (svc : Services) (state : AgentState) (log : Log) :
  exists more : Log,
    snd (analyze_results svc state log) = log ++ more
    /\ List.filter is_execution more = [].
Proof.
  assert (Hnil : exists more : Log,
             log = log ++ more /\ List.filter is_execution more = [])
    by (exists []; now rewrite List.app_nil_r).
  unfold analyze_results.
  destruct (truthy (error state)); [exact Hnil|].
  destruct (query_result state) as [df|]; [|exact Hnil].
  assert (Hgen : exists more : Log,
             snd (generate_insights svc state df log) = log ++ more
             /\ List.filter is_execution more = []).
  { unfold generate_insights.
    destruct (llm_service svc) as [llm|].
    - unfold call_generate_text.
      match goal with
      | |- context [llm ?l ?p] => destruct (llm l p) as [text|e]
      end; cbn [snd]; eexists; split; reflexivity.
    - destruct (simple_insight _ _); exact Hnil. }
  destruct (generate_insights svc state df log) as [[text|e] log1];
    cbn [snd] in *; exact Hgen.
Qed.

Lemma create_visualization_log (svc : Services) (state : AgentState) (log : Log) :
  exists more : Log,
    snd (create_visualization svc state log) = log ++ more
    /\ List.filter is_execution more = [].
Proof.
  assert (Hnil : exists more : Log,
             log = log ++ more /\ List.filter is_execution more = [])
    by (exists []; now rewrite List.app_nil_r).
  unfold create_visualization.
  destruct (truthy (error state)); [exact Hnil|].
  destruct (query_result state) as [df|]; [|exact Hnil].
  unfold call_visualize.
  destruct (viz_create_visualization svc log df (metadata_type state) (query state))
    as [spec|e]; cbn [snd]; eexists; split; reflexivity.
Qed.

Lemma first_execution_none (log : Log) :
  List.filter is_execution log = [] -> first_execution log = None.
Proof. unfold first_execution. now intros ->. Qed.

Lemma first_execution_skip (pre log : Log) :
  List.filter is_execution pre = [] ->
  first_execution (pre ++ log) = first_execution log.
Proof. unfold first_execution. intros H. now rewrite List.filter_app, H. Qed.

Lemma first_execution_head (sql : option string) (n : Z) (rest : Log) :
  first_execution (CallExecute sql n :: rest) = Some sql.
Proof. reflexivity. Qed.

Lemma validate_sql_passed (state st' : AgentState) :
  validate_sql state = Ok st' ->
  truthy (error st') = false ->
  st' = state /\ validated (sql_query state) = true.
Proof.
  unfold validate_sql, validated.
  destruct (truthy (error state)) eqn:Herr; [intros [= <-]; congruence|].
  destruct (sql_query state) as [sql|]; [|discriminate].
  destruct (first_forbidden sql); [intros [= <-]; discriminate|].
  destruct (contains "SELECT" sql); intros [= <-]; [auto|discriminate].
Qed.

(** The calls of the workflow that follows the generation: any execution in
    them starts with the statement of the state, which has passed
    [validate_sql]. *)
Lemma standard_workflow_log (svc : Services) (state : AgentState) (log log' : Log)
    (r : result AgentState) :
  standard_workflow svc state log = Some (r, log') ->
  exists more : Log,
    log' = log ++ more
    /\ forall sql : option string,
         first_execution more = Some sql ->
         sql = sql_query state /\ validated sql = true.
Proof.
  assert (Hnil : forall l, l = log -> exists more : Log,
             l = log ++ more
             /\ forall sql, first_execution more = Some sql ->
                  sql = sql_query state /\ validated sql = true).
  { intros l ->. exists []. split; [now rewrite List.app_nil_r|]. discriminate. }
  unfold standard_workflow.
  destruct (validate_sql state) as [st1|e] eqn:Hv;
    [|intros [= _ <-]; now apply Hnil].
  destruct (truthy (error st1)) eqn:Herr; cbn [negb];
    [intros [= _ <-]; now apply Hnil|].
  apply validate_sql_passed in Hv as [-> Hval]; [|exact Herr].
  destruct (execute_query svc state log) as [[r2 log2]|] eqn:Hrun; [|discriminate].
  unfold execute_query in Hrun. apply execute_query_fuel_log in Hrun.
  assert (Hexec : forall tail : Log,
             List.filter is_execution tail = [] ->
             exists more : Log,
               log2 ++ tail = log ++ more
               /\ forall sql, first_execution more = Some sql ->
                    sql = sql_query state /\ validated sql = true).
  { intros tail Htail. destruct Hrun as [-> | [rest ->]].
    - exists tail. split; [reflexivity|].
      intros sql. now rewrite (first_execution_none tail Htail).
    - rewrite <- List.app_assoc. eexists. split; [reflexivity|].
      cbn [List.app]. rewrite first_execution_head. intros sql [= <-]. auto. }
  destruct r2 as [st2|e].
  2:{ intros [= _ <-]. rewrite <- (List.app_nil_r log2). now apply Hexec. }
  destruct (truthy (error st2)); cbn [negb].
  { intros [= _ <-]. rewrite <- (List.app_nil_r log2). now apply Hexec. }
  destruct (analyze_results_log svc st2 log2) as (more3 & H3 & Hno3).
  destruct (analyze_results svc st2 log2) as [[st3|e] log3]; cbn [snd] in H3; subst log3.
  2:{ intros [= _ <-]. now apply Hexec. }
  destruct (create_visualization_log svc st3 (log2 ++ more3)) as (more4 & H4 & Hno4).
  intros [= Hc]. rewrite Hc in H4. cbn [snd] in H4. subst log'.
  rewrite <- List.app_assoc. apply Hexec.
  now rewrite List.filter_app, Hno3, Hno4.
Qed.

(** Whatever a specialized agent executes first has passed [validate_sql]:
    the agent returns, only adds calls to the log, and the first statement it
    sends to the execution collaborator, if it sends one, holds an upper-case
    SELECT and none of the forbidden keywords as an upper-case whole word. *)
Theorem agent_first_execution_is_validated (query_type complexity : string)
    (finish_prompt : string -> string) (svc : Services) (state : AgentState)
    (log : Log) :
  exists (r : result AgentState) (more : Log),
    specialized_agent query_type complexity finish_prompt svc state log
    = Some (r, log ++ more)
    /\ forall sql : option string,
         first_execution more = Some sql -> validated sql = true.
Proof.
  rewrite specialized_agent_unfold.
  assert (Hflow : forall st pre,
             List.filter is_execution pre = [] ->
             exists r more,
               standard_workflow svc st (log ++ pre) = Some (r, log ++ more)
               /\ forall sql, first_execution more = Some sql -> validated sql = true).
  { intros st pre Hpre.
    destruct (standard_workflow_returns svc st (log ++ pre)) as (r & log' & Hrun).
    destruct (standard_workflow_log _ _ _ _ _ Hrun) as (more & -> & Hfirst).
    exists r, (pre ++ more). split; [now rewrite Hrun, List.app_assoc|].
    intros sql. rewrite first_execution_skip by exact Hpre.
    intros H. now apply Hfirst in H. }
  assert (Hplain : forall st,
             exists r more,
               standard_workflow svc st log = Some (r, log ++ more)
               /\ forall sql, first_execution more = Some sql -> validated sql = true).
  { intros st. destruct (Hflow st [] eq_refl) as (r & more & Hrun & H).
    rewrite List.app_nil_r in Hrun. eauto. }
  destruct (llm_service svc) as [llm|]; [destruct (schema_service svc) as [sch|]|];
    [|apply Hplain..].
  unfold agent_generate.
  cbv [bind call_schema_context call_generate_text ret].
  destruct (sch log true) as [ctx|e].
  2:{ eexists _, _. split; [reflexivity|]. discriminate. }
  match goal with
  | |- context [llm ?l ?p] => destruct (llm l p) as [text|e]
  end.
  2:{ rewrite <- List.app_assoc. eexists _, _. split; [reflexivity|]. discriminate. }
  rewrite <- List.app_assoc. apply Hflow. reflexivity.
Qed.

Lemma execute_query_fuel_extends (fuel : nat) (svc : Services) (state : AgentState)
    (log log' : Log) (r : result AgentState) :
  execute_query_fuel fuel svc state log = Some (r, log') ->
  exists more : Log, log' = log ++ more.
Proof.
  intros H. apply execute_query_fuel_log in H as [-> | [rest ->]]; [|eauto].
  exists []. now rewrite List.app_nil_r.
Qed.

(** The statement that a delegated recovery returns is executed as it is:
    [validate_sql] is not consulted again.  After a first execution that fails
    with a message that takes the recovery to the text generation, the next
    call to the execution collaborator carries the cleaned answer, whatever
    that text is. *)
Theorem recovered_statement_is_executed_unvalidated (svc : Services)
    (state : AgentState) (log : Log) (sql error_msg ctx text : string)
    (sch : Log -> bool -> result string) (llm : Log -> string -> result string) :
  truthy (error state) = false ->
  retry_count state = Some 0 ->
  sql_query state = Some sql ->
  bigquery_execute_query svc log (Some sql) (MAX_QUERY_ROWS svc) = Raise error_msg ->
  delegates error_msg = true ->
  llm_service svc = Some llm ->
  schema_service svc = Some sch ->
  sch (log ++ [CallExecute (Some sql) (MAX_QUERY_ROWS svc)]) false = Ok ctx ->
  llm (log ++ [CallExecute (Some sql) (MAX_QUERY_ROWS svc)] ++ [CallSchemaContext false])
      (get_error_recovery_prompt (query state) sql error_msg ctx) = Ok text ->
  exists (r : result AgentState) (rest : Log),
    execute_query svc state log
    = Some (r, log ++ [CallExecute (Some sql) (MAX_QUERY_ROWS svc);
                       CallSchemaContext false;
                       CallGenerateText
                         (get_error_recovery_prompt (query state) sql error_msg ctx);
                       CallExecute (Some (clean_sql_output text)) (MAX_QUERY_ROWS svc)]
                   ++ rest).
Proof.
  intros Herr Hn Hsql Hexec Hdel Hllm Hsch Hctx Htext.
  unfold execute_query, depth_bound. rewrite Hn.
  change (S (Z.to_nat (max_retries - 0))) with 3%nat.
  cbn [execute_query_fuel]. rewrite Herr, Hn.
  change (0 >=? max_retries) with false. change (0 <? max_retries) with true.
  unfold call_execute at 1. rewrite Hsql, Hexec. cbn iota.
  rewrite (recover_with_delegation svc
             (set_error state (Some ("Query execution failed: " +:+ error_msg)))
             error_msg sql _ sch llm Hsql Hdel Hllm Hsch).
  cbn [query set_error].
  rewrite (llm_correction_ok sch llm (query state) sql error_msg ctx text _ Hctx)
    by (rewrite <- List.app_assoc; exact Htext).
  cbn [error retry_count sql_query set_retry_count apply_correction set_error
       set_sql_query truthy].
  change (0 + 1 >=? max_retries) with false. change (0 + 1 <? max_retries) with true.
  unfold call_execute.
  match goal with
  | |- context [bigquery_execute_query svc ?l ?s ?m] =>
      destruct (bigquery_execute_query svc l s m) as [df|msg2]
  end.
  - eexists _, []. rewrite <- !List.app_assoc. reflexivity.
  - cbn beta iota.
    match goal with
    | |- context [_recover_from_error svc ?s ?m ?l] =>
        destruct (recover_extends_log svc s m l) as (more & Hmore & _)
    end.
    match goal with
    | |- context [_recover_from_error svc ?s ?m ?l] =>
        destruct (_recover_from_error svc s m l) as [[st3|m3] log3]
    end; cbn [snd] in Hmore; subst log3.
    + destruct (truthy (error st3));
        [|change (0 + 1 + 1 >=? max_retries) with true; cbn iota];
        eexists _, more; rewrite <- !List.app_assoc; reflexivity.
    + eexists _, more. rewrite <- !List.app_assoc. reflexivity.
Qed.

Lemma recovered_statement_is_executed_unvalidated_witness :
  let error_msg := "Unrecognized name: order_date; column not found at [1:8]" in
  let sql := "SELECT order_date FROM orders" in
  let state := state_with_sql "Orders by day" sql in
  let svc := services error_msg (Ok "```sql
DROP TABLE orders
```") (Ok None) in
  validated (Some "DROP TABLE orders") = false
  /\ exists (r : result AgentState) (rest : Log),
       execute_query svc state []
       = Some (r, [] ++ [CallExecute (Some sql) 10000;
                         CallSchemaContext false;
                         CallGenerateText
                           (get_error_recovery_prompt "Orders by day" sql error_msg
                              "SCHEMA: orders(order_id, status)");
                         CallExecute (Some "DROP TABLE orders") 10000]
                     ++ rest).
Proof.
  intros error_msg sql state svc. split; [reflexivity|].
  exact (recovered_statement_is_executed_unvalidated svc state [] sql error_msg
           "SCHEMA: orders(order_id, status)" "```sql
DROP TABLE orders
```"
           (fun _ _ => Ok "SCHEMA: orders(order_id, status)")
           (fun _ _ => Ok "```sql
DROP TABLE orders
```")
           eq_refl eq_refl eq_refl eq_refl eq_refl eq_refl eq_refl eq_refl eq_refl).
Defined.

Lemma truthy_failure_message (error_msg : string) :
  truthy (Some ("Query execution failed: " +:+ error_msg)) = true.
Proof. reflexivity. Qed.

(** A failed execution followed by a retry that succeeds.  When the first
    execution raises and every later one answers [df], [execute_query]
    returns a state in one of two shapes.  Either the retry took place: the
    result is [df], the error is cleared, the failure is kept in
    [previous_errors], and the retry counter is back at 0.  Or the recovery
    left the error in place (its text generation failed): nothing more is
    executed and the state ends with the execution error and the counter
    raised by one. *)
Theorem retried_success_resets_retry_count (svc : Services) (state : AgentState)
    (log : Log) (sql error_msg : string) (n : Z) (df : DataFrame) :
  truthy (error state) = false ->
  retry_count state = Some n ->
  n + 1 < max_retries ->
  sql_query state = Some sql ->
  bigquery_execute_query svc log (Some sql) (MAX_QUERY_ROWS svc) = Raise error_msg ->
  (forall (l : Log) (s : option string),
      (executions log < executions l)%nat ->
      bigquery_execute_query svc l s (MAX_QUERY_ROWS svc) = Ok df) ->
  exists (final : AgentState) (log' : Log),
    execute_query svc state log = Some (Ok final, log')
    /\ ((query_result final = Some df
         /\ error final = None
         /\ retry_count final = Some 0
         /\ logged_errors final = logged_errors state ++ [error_msg]
         /\ executions log' = (executions log + 2)%nat)
        \/ (query_result final = query_result state
            /\ error final = Some ("Query execution failed: " +:+ error_msg)
            /\ retry_count final = Some (n + 1)
            /\ logged_errors final = logged_errors state ++ [error_msg]
            /\ executions log' = (executions log + 1)%nat)).
Proof.
  intros Herr Hn Hlt Hsql Hexec Hlater.
  unfold execute_query, depth_bound. rewrite Hn.
  destruct (Z.to_nat (max_retries - n)) as [|[|fuel]] eqn:Hfuel;
    [unfold max_retries in *; lia..|].
  cbn [execute_query_fuel]. rewrite Herr, Hn.
  replace (n >=? max_retries) with false
    by (symmetry; rewrite Z.geb_leb; apply Z.leb_gt; lia).
  replace (n <? max_retries) with true by (symmetry; apply Z.ltb_lt; lia).
  unfold call_execute at 1. rewrite Hsql, Hexec. cbn iota.
  destruct (recover_shape svc
              (set_error state (Some ("Query execution failed: " +:+ error_msg)))
              error_msg sql (log ++ [CallExecute (Some sql) (MAX_QUERY_ROWS svc)])
              Hsql)
    as (st1 & log1 & sql1 & Hrec & Hsql1 & Hres1 & Hretry1 & Hlogged1 & Hexecs1 & Herr1).
  rewrite Hrec.
  rewrite executions_app in Hexecs1. cbn in Hexecs1.
  cbn [error retry_count sql_query set_retry_count].
  destruct Herr1 as [He | He]; rewrite He.
  - cbn [truthy].
    replace (n + 1 >=? max_retries) with false
      by (symmetry; rewrite Z.geb_leb; apply Z.leb_gt; lia).
    unfold call_execute. rewrite Hlater by lia.
    eexists _, _. split; [reflexivity|]. left.
    cbn [error set_query_result set_retry_count]. rewrite He. cbn [truthy].
    split; [reflexivity|]. split; [exact He|]. split; [reflexivity|].
    split; [exact Hlogged1|].
    rewrite executions_app, Hexecs1. cbn. lia.
  - cbn [error set_error]. rewrite truthy_failure_message.
    eexists _, _. split; [reflexivity|]. right.
    split; [exact Hres1|]. split; [exact He|]. split; [reflexivity|].
    split; [exact Hlogged1|]. lia.
Qed.

Lemma retried_success_resets_retry_count_witness :
  let state := state_with_sql "Orders by status"
                 "SELECT status, COUNT(*) FROM orders GROUP BY status" in
  exists (final : AgentState) (log' : Log),
    execute_query (flaky_services "Connection reset") state []
    = Some (Ok final, log')
    /\ query_result final = Some orders_table
    /\ error final = None
    /\ retry_count final = Some 0
    /\ previous_errors final = Some ["Connection reset"].
Proof.
  intros state.
  destruct (retried_success_resets_retry_count (flaky_services "Connection reset")
              state [] "SELECT status, COUNT(*) FROM orders GROUP BY status"
              "Connection reset" 0 orders_table
              eq_refl eq_refl eq_refl eq_refl eq_refl)
    as (final & log' & Hrun & Hshape).
  { intros l s Hl. cbn. destruct (executions l); [cbn in Hl; lia|reflexivity]. }
  exists final, log'. split; [exact Hrun|].
  vm_compute in Hrun. injection Hrun as <- <-. repeat split.
Defined.

Lemma agent_generation_failure_escapes_witness :
  let svc := services "unused" (Raise "429 quota exceeded") (Ok None) in
  let state := create_initial_state "Customers by segment" in
  exists (e' : string) (log1 log2 : Log),
    customer_segmentation_agent svc state [] = Some (Raise e', log1)
    /\ executions log1 = executions []
    /\ generate_sql (Ok svc) state []
       = (Ok (set_error state (Some ("SQL generation failed: " +:+ e'))), log2)
    /\ executions log2 = executions [].
Proof.
  intros svc state.
  exact (agent_generation_failure_escapes "customer_analysis" "medium"
           (fun prompt => prompt) svc state []
           (fun _ _ => Raise "429 quota exceeded")
           (fun _ _ => Ok "SCHEMA: orders(order_id, status)")
           "429 quota exceeded" eq_refl eq_refl (fun _ _ => eq_refl)).
Defined.

End WorkflowFacts.
